(** * ezynotify: change detection and keyword tracking

    A shallow embedding of [ezynotify.py].  Python strings are lists of
    Unicode code points, dictionaries with a fixed set of keys are records,
    and the effects of the script (clock, browser, Telegram, Supabase,
    console) are threaded through a small state-and-exception monad that
    records a trace of events. *)

From Stdlib Require Import String Ascii.
From Stdlib Require Import List Arith Bool NArith Lia.
Import ListNotations.
Local Open Scope list_scope.

(** ** Python [str] *)

Module PyStr.

Definition char := N.
Definition pystr := list char.

(** An ASCII literal as a Python string. *)
Definition lit (s : string) : pystr := map N_of_ascii (list_ascii_of_string s).
Arguments lit s%_string.

Fixpoint eqb (a b : pystr) : bool :=
  match a, b with
  | [], [] => true
  | x :: a', y :: b' => N.eqb x y && eqb a' b'
  | _, _ => false
  end.

Definition nonempty {A} (l : list A) : bool :=
  match l with [] => false | _ :: _ => true end.

(** [str.isspace] on one code point ([Py_UNICODE_ISSPACE]); the regular
    expression class [\s] on [str] patterns is the same set. *)
Definition isspace (c : char) : bool :=
  ((9 <=? c) && (c <=? 13) || (28 <=? c) && (c <=? 32)
   || (c =? 133) || (c =? 160) || (c =? 5760)
   || (8192 <=? c) && (c <=? 8202)
   || (c =? 8232) || (c =? 8233) || (c =? 8239) || (c =? 8287)
   || (c =? 12288))%N.

Fixpoint lstrip (s : pystr) : pystr :=
  match s with
  | c :: s' => if isspace c then lstrip s' else s
  | [] => []
  end.

Definition rstrip (s : pystr) : pystr := rev (lstrip (rev s)).
Definition strip (s : pystr) : pystr := rstrip (lstrip s).

(** [s.split()]: the maximal runs of non-whitespace, in order.  [cur] is the
    run being read, most recent character first. *)
Fixpoint split_from (cur : pystr) (s : pystr) : list pystr :=
  match s with
  | [] => if nonempty cur then [rev cur] else []
  | c :: s' =>
      if isspace c
      then (if nonempty cur then rev cur :: split_from [] s'
            else split_from [] s')
      else split_from (c :: cur) s'
  end.

Definition split (s : pystr) : list pystr := split_from [] s.

(** [sep.join(parts)] *)
Fixpoint join (sep : pystr) (parts : list pystr) : pystr :=
  match parts with
  | [] => []
  | [p] => p
  | p :: rest => p ++ sep ++ join sep rest
  end.

Fixpoint startswith (s prefix : pystr) : bool :=
  match prefix, s with
  | [], _ => true
  | p :: prefix', c :: s' => N.eqb c p && startswith s' prefix'
  | _ :: _, [] => false
  end.

(** [sub in s] *)
Fixpoint contains (s sub : pystr) : bool :=
  startswith s sub ||
  match s with
  | [] => false
  | _ :: s' => contains s' sub
  end.

(** [l[lo:hi]] for non-negative [lo] and [hi]. *)
Definition slice {A} (l : list A) (lo hi : nat) : list A :=
  firstn (hi - lo) (skipn lo l).

(** [x in l] for a list of strings. *)
Definition mem (x : pystr) (l : list pystr) : bool := existsb (eqb x) l.

(** [l.remove(x)]: drops the first occurrence ([x] is known to occur). *)
Fixpoint remove_first (x : pystr) (l : list pystr) : list pystr :=
  match l with
  | [] => []
  | y :: l' => if eqb y x then l' else y :: remove_first x l'
  end.

(** [str.lower] and [str.title] on ASCII text; other code points are kept. *)
Definition is_upper (c : char) : bool := ((65 <=? c) && (c <=? 90))%N.
Definition is_lower (c : char) : bool := ((97 <=? c) && (c <=? 122))%N.
Definition to_lower (c : char) : char := if is_upper c then (c + 32)%N else c.
Definition to_upper (c : char) : char := if is_lower c then (c - 32)%N else c.
Definition ascii_lower (s : pystr) : pystr := map to_lower s.

Fixpoint title_from (prev_cased : bool) (s : pystr) : pystr :=
  match s with
  | [] => []
  | c :: s' =>
      (if prev_cased then to_lower c else to_upper c)
        :: title_from (is_upper c || is_lower c) s'
  end.
Definition ascii_title (s : pystr) : pystr := title_from false s.

End PyStr.
Import PyStr.

(** ** [difflib]: the word differ imported by the script

    [difflib.ndiff(a, b)] of CPython 3.11, that is
    [Differ(None, IS_CHARACTER_JUNK).compare(a, b)], on lists of strings.
    Ratios are kept as exact fractions. *)

Module Difflib.

Section SequenceMatcher.
Context {A : Type} (eqb : A -> A -> bool) (isjunk : A -> bool).
Context (a b : list A).

Definition count (x : A) : nat := length (filter (eqb x) b).

Fixpoint indices_from (x : A) (j : nat) (l : list A) : list nat :=
  match l with
  | [] => []
  | y :: l' => if eqb y x then j :: indices_from x (S j) l'
               else indices_from x (S j) l'
  end.

(** [x in self.bpopular] *)
Definition is_popular (x : A) : bool :=
  (200 <=? length b) && negb (isjunk x)
  && (length b / 100 + 1 <? count x).

(** [self.b2j.get(x, [])], after junk and popular elements are purged *)
Definition b2j (x : A) : list nat :=
  if isjunk x || is_popular x then [] else indices_from x 0 b.

Definition get (j2len : list (nat * nat)) (j : nat) : nat :=
  match find (fun p => fst p =? j) j2len with
  | Some p => snd p
  | None => 0
  end.

Definition Match := (nat * nat * nat)%type.

(** The inner loop of [find_longest_match] for one [i]. *)
Fixpoint scan_row (blo bhi i : nat) (j2len : list (nat * nat))
    (js : list nat) (newj2len : list (nat * nat)) (best : Match)
    : list (nat * nat) * Match :=
  match js with
  | [] => (newj2len, best)
  | j :: js' =>
      if j <? blo then scan_row blo bhi i j2len js' newj2len best
      else if bhi <=? j then (newj2len, best)
      else
        let k := (match j with 0 => 0 | S j' => get j2len j' end) + 1 in
        let '(_, _, bestsize) := best in
        scan_row blo bhi i j2len js' ((j, k) :: newj2len)
          (if bestsize <? k then (i + 1 - k, j + 1 - k, k) else best)
  end.

Fixpoint scan_rows (blo bhi : nat) (rows : list (nat * A))
    (j2len : list (nat * nat)) (best : Match) : Match :=
  match rows with
  | [] => best
  | (i, ai) :: rows' =>
      let '(newj2len, best') :=
        scan_row blo bhi i j2len (b2j ai) [] best in
      scan_rows blo bhi rows' newj2len best'
  end.

Definition same_at (i j : nat) : bool :=
  match nth_error a i, nth_error b j with
  | Some x, Some y => eqb x y
  | _, _ => false
  end.

Definition junk_at (j : nat) : bool :=
  match nth_error b j with Some y => isjunk y | None => false end.

(** [while besti > alo and bestj > blo and P(b[bestj-1]) and
    a[besti-1] == b[bestj-1]]; at most [besti] rounds. *)
Fixpoint extend_left (P : nat -> bool) (alo blo : nat) (rounds : nat)
    (m : Match) : Match :=
  let '(besti, bestj, bestsize) := m in
  match rounds with
  | 0 => m
  | S rounds' =>
      if (alo <? besti) && (blo <? bestj) && P (bestj - 1)
         && same_at (besti - 1) (bestj - 1)
      then extend_left P alo blo rounds' (besti - 1, bestj - 1, bestsize + 1)
      else m
  end.

(** [while besti+bestsize < ahi and bestj+bestsize < bhi and
    P(b[bestj+bestsize]) and a[besti+bestsize] == b[bestj+bestsize]] *)
Fixpoint extend_right (P : nat -> bool) (ahi bhi : nat) (rounds : nat)
    (m : Match) : Match :=
  let '(besti, bestj, bestsize) := m in
  match rounds with
  | 0 => m
  | S rounds' =>
      if (besti + bestsize <? ahi) && (bestj + bestsize <? bhi)
         && P (bestj + bestsize)
         && same_at (besti + bestsize) (bestj + bestsize)
      then extend_right P ahi bhi rounds' (besti, bestj, bestsize + 1)
      else m
  end.

Definition find_longest_match (alo ahi blo bhi : nat) : Match :=
  let rows := combine (seq alo (ahi - alo)) (slice a alo ahi) in
  let m0 := scan_rows blo bhi rows [] (alo, blo, 0) in
  let notjunk j := negb (junk_at j) in
  let m1 := extend_left notjunk alo blo ahi m0 in
  let m2 := extend_right notjunk ahi bhi ahi m1 in
  let m3 := extend_left junk_at alo blo ahi m2 in
  extend_right junk_at ahi bhi ahi m3.

(** The work list of [get_matching_blocks], most recently appended entry
    first, so that [queue.pop()] takes the head.  Every round removes one
    entry and appends only strictly smaller, non-empty ranges. *)
Fixpoint match_queue (rounds : nat) (queue : list (nat * nat * nat * nat))
    (blocks : list Match) : list Match :=
  match rounds, queue with
  | S rounds', (alo, ahi, blo, bhi) :: queue' =>
      let '(i, j, k) := find_longest_match alo ahi blo bhi in
      if k =? 0 then match_queue rounds' queue' blocks
      else
        let q1 := if (alo <? i) && (blo <? j)
                  then (alo, i, blo, j) :: queue' else queue' in
        let q2 := if (i + k <? ahi) && (j + k <? bhi)
                  then (i + k, ahi, j + k, bhi) :: q1 else q1 in
        match_queue rounds' q2 (blocks ++ [(i, j, k)])
  | _, _ => blocks
  end.

(** Tuple order of [matching_blocks.sort()]. *)
Definition match_leb (x y : Match) : bool :=
  let '(i1, j1, k1) := x in
  let '(i2, j2, k2) := y in
  (i1 <? i2) || (i1 =? i2) && ((j1 <? j2) || (j1 =? j2) && (k1 <=? k2)).

Fixpoint insert_sorted (x : Match) (l : list Match) : list Match :=
  match l with
  | [] => [x]
  | y :: l' => if match_leb x y then x :: l else y :: insert_sorted x l'
  end.

Definition sort_matches (l : list Match) : list Match :=
  fold_right insert_sorted [] l.

(** Collapsing adjacent blocks; [(i1, j1, k1)] is the block compared
    against. *)
Fixpoint collapse (cur : Match) (l : list Match) : list Match :=
  let '(i1, j1, k1) := cur in
  match l with
  | [] => if k1 =? 0 then [] else [cur]
  | (i2, j2, k2) :: l' =>
      if (i1 + k1 =? i2) && (j1 + k1 =? j2)
      then collapse (i1, j1, k1 + k2) l'
      else (if k1 =? 0 then [] else [cur]) ++ collapse (i2, j2, k2) l'
  end.

Definition get_matching_blocks : list Match :=
  let la := length a in
  let lb := length b in
  let blocks := match_queue (2 * (la + lb) + 1) [(0, la, 0, lb)] [] in
  collapse (0, 0, 0) (sort_matches blocks) ++ [(la, lb, 0)].

Inductive tag := Replace | Delete | Insert | Equal.
Definition opcode := (tag * nat * nat * nat * nat)%type.

Fixpoint opcodes_from (i j : nat) (blocks : list Match) : list opcode :=
  match blocks with
  | [] => []
  | (ai, bj, size) :: blocks' =>
      (if (i <? ai) && (j <? bj) then [(Replace, i, ai, j, bj)]
       else if i <? ai then [(Delete, i, ai, j, bj)]
       else if j <? bj then [(Insert, i, ai, j, bj)]
       else [])
      ++ (if size =? 0 then [] else [(Equal, ai, ai + size, bj, bj + size)])
      ++ opcodes_from (ai + size) (bj + size) blocks'
  end.

Definition get_opcodes : list opcode := opcodes_from 0 0 get_matching_blocks.

(** A ratio [2.0 * matches / length] as the fraction (numerator,
    denominator); [_calculate_ratio] gives 1.0 for length 0. *)
Definition calculate_ratio (matches len : nat) : nat * nat :=
  if len =? 0 then (1, 1) else (2 * matches, len).

Definition ratio : nat * nat :=
  calculate_ratio
    (list_sum (map (fun m : Match => snd m) get_matching_blocks))
    (length a + length b).

(** [avail] of [quick_ratio]: for the elements of [a] seen so far, the
    count in [b] less the number of times seen. *)
Fixpoint quick_matches (seen : list A) (rest : list A) : nat :=
  match rest with
  | [] => 0
  | x :: rest' =>
      let numb := count x - length (filter (eqb x) seen) in
      (if 0 <? numb then 1 else 0) + quick_matches (x :: seen) rest'
  end.

Definition quick_ratio : nat * nat :=
  calculate_ratio (quick_matches [] a) (length a + length b).

Definition real_quick_ratio : nat * nat :=
  calculate_ratio (Nat.min (length a) (length b)) (length a + length b).

End SequenceMatcher.

(** [IS_CHARACTER_JUNK]: blank or tab. *)
Definition IS_CHARACTER_JUNK (ch : char) : bool := ((ch =? 32) || (ch =? 9))%N.

Definition no_junk (line : pystr) : bool := false.

(** [p > q] and [p < q] on fractions. *)
Definition frac_gt (p q : nat * nat) : bool := fst q * snd p <? fst p * snd q.
Definition frac_lt (p q : nat * nat) : bool := frac_gt q p.

(** [Differ._dump]: ['%s %s' % (tag, x[i])] for [i] in [range(lo, hi)]. *)
Definition dump (tag : char) (x : list pystr) (lo hi : nat) : list pystr :=
  map (fun line => tag :: 32%N :: line) (slice x lo hi).

Definition plain_replace (a : list pystr) (alo ahi : nat)
    (b : list pystr) (blo bhi : nat) : list pystr :=
  if bhi - blo <? ahi - alo
  then dump 43%N b blo bhi ++ dump 45%N a alo ahi
  else dump 45%N a alo ahi ++ dump 43%N b blo bhi.

(** State of the search loops of [_fancy_replace]: [best_ratio], the pair
    [(best_i, best_j)] once assigned, and [(eqi, eqj)]. *)
Definition search_state :=
  ((nat * nat) * option (nat * nat) * option (nat * nat))%type.

(** The lines [x[lo:hi]], each with its index in [x]. *)
Definition indexed (x : list pystr) (lo hi : nat) : list (nat * pystr) :=
  combine (seq lo (hi - lo)) (slice x lo hi).

(** The body of the inner loop, for [b[j] = bj] and [a[i] = ai]. *)
Definition search_step (jb ia : nat * pystr) (st : search_state)
    : search_state :=
  let '(j, bj) := jb in
  let '(i, ai) := ia in
  let '(best_ratio, best, eq) := st in
  if PyStr.eqb ai bj
  then (best_ratio, best, match eq with None => Some (i, j) | _ => eq end)
  else
    if frac_gt (real_quick_ratio ai bj) best_ratio
       && frac_gt (quick_ratio N.eqb ai bj) best_ratio
       && frac_gt (ratio N.eqb IS_CHARACTER_JUNK ai bj) best_ratio
    then (ratio N.eqb IS_CHARACTER_JUNK ai bj, Some (i, j), eq)
    else st.

Definition search (a : list pystr) (alo ahi : nat)
    (b : list pystr) (blo bhi : nat) : search_state :=
  let rows := indexed a alo ahi in
  fold_left
    (fun st jb => fold_left (fun st' ia => search_step jb ia st') rows st)
    (indexed b blo bhi)
    ((74, 100), None, None).

(** The tag strings built from the opcodes of the synch pair. *)
Fixpoint intraline_tags (ops : list opcode) : pystr * pystr :=
  match ops with
  | [] => ([], [])
  | (t, ai1, ai2, bj1, bj2) :: ops' =>
      let la := ai2 - ai1 in
      let lb := bj2 - bj1 in
      let '(atags, btags) := intraline_tags ops' in
      match t with
      | Replace => (repeat 94%N la ++ atags, repeat 94%N lb ++ btags)
      | Delete => (repeat 45%N la ++ atags, btags)
      | Insert => (atags, repeat 43%N lb ++ btags)
      | Equal => (repeat 32%N la ++ atags, repeat 32%N lb ++ btags)
      end
  end.

Definition keep_original_ws (s tag_s : pystr) : pystr :=
  map (fun p : char * char =>
         let (c, tag_c) := p in
         if (tag_c =? 32)%N && isspace c then c else tag_c)
      (combine s tag_s).

Definition qformat (aline bline atags btags : pystr) : list pystr :=
  let atags' := rstrip (keep_original_ws aline atags) in
  let btags' := rstrip (keep_original_ws bline btags) in
  [lit "- " ++ aline]
  ++ (if nonempty atags' then [lit "? " ++ atags' ++ [10%N]] else [])
  ++ [lit "+ " ++ bline]
  ++ (if nonempty btags' then [lit "? " ++ btags' ++ [10%N]] else []).

(** [_fancy_replace], with [_fancy_helper] as the local [helper].  The
    two call each other, one level deeper for every synch pair, and the
    interpreter raises [RecursionError] when its recursion limit is reached:
    [room] is the number of nested calls of [_fancy_replace] that still fit,
    and the result is [None] when a deeper one is needed. *)
Fixpoint fancy_replace (room : nat) (a : list pystr) (alo ahi : nat)
    (b : list pystr) (blo bhi : nat) : option (list pystr) :=
  match room with
  | 0 => None
  | S room' =>
      let helper alo' ahi' blo' bhi' :=
        if alo' <? ahi'
        then (if blo' <? bhi'
              then fancy_replace room' a alo' ahi' b blo' bhi'
              else Some (dump 45%N a alo' ahi'))
        else if blo' <? bhi' then Some (dump 43%N b blo' bhi')
        else Some [] in
      let '(best_ratio, best, eq) := search a alo ahi b blo bhi in
      let synch :=
        if frac_lt best_ratio (75, 100)
        then match eq with
             | None => None
             | Some p => Some (p, true)
             end
        else match best with
             | None => None
             | Some p => Some (p, false)
             end in
      match synch with
      | None => Some (plain_replace a alo ahi b blo bhi)
      | Some ((best_i, best_j), identical) =>
          match nth_error a best_i, nth_error b best_j with
          | Some aelt, Some belt =>
              match helper alo best_i blo best_j with
              | None => None
              | Some before =>
                  let synched :=
                    if identical then [lit "  " ++ aelt]
                    else
                      let '(atags, btags) :=
                        intraline_tags
                          (get_opcodes N.eqb IS_CHARACTER_JUNK aelt belt) in
                      qformat aelt belt atags btags in
                  match helper (best_i + 1) ahi (best_j + 1) bhi with
                  | None => None
                  | Some after => Some (before ++ synched ++ after)
                  end
              end
          | _, _ => Some []
          end
      end
  end.

Definition compare_opcode (room : nat) (a b : list pystr) (op : opcode)
    : option (list pystr) :=
  let '(t, alo, ahi, blo, bhi) := op in
  match t with
  | Replace => fancy_replace room a alo ahi b blo bhi
  | Delete => Some (dump 45%N a alo ahi)
  | Insert => Some (dump 43%N b blo bhi)
  | Equal => Some (dump 32%N a alo ahi)
  end.

(** The loop of [Differ.compare] over the opcodes. *)
Fixpoint compare_opcodes (room : nat) (a b : list pystr) (ops : list opcode)
    : option (list pystr) :=
  match ops with
  | [] => Some []
  | op :: ops' =>
      match compare_opcode room a b op with
      | None => None
      | Some lines =>
          match compare_opcodes room a b ops' with
          | None => None
          | Some rest => Some (lines ++ rest)
          end
      end
  end.

(** [difflib.ndiff(a, b)], consumed to the end: the list of the lines it
    yields, or [None] when it raises [RecursionError]. *)
Definition ndiff (room : nat) (a b : list pystr) : option (list pystr) :=
  compare_opcodes room a b (get_opcodes PyStr.eqb no_junk a b).

(** The room that [get_diff] leaves when the script runs under the default
    recursion limit of 1000: the module, [main], [process_row] and
    [get_diff] are on the stack, and every level of [_fancy_replace] takes
    two frames, its own and the one of [_fancy_helper].  In CPython 3.11,
    495 nested levels return and a 496th raises, for runs of equal words as
    for runs of similar words, and also when the deepest level ends in a
    plain replacement. *)
Definition script_room : nat := 495.

End Difflib.

(** ** Records of the script *)

(** A change dictionary, as built by [get_diff] and as stored in the
    [Updates] column; [context] is [None] when the key is absent. *)
Record Change := {
  change : pystr;
  action : pystr;
  context : option pystr;
  time : pystr
}.

(** An entry of the [foundKeyword] column. *)
Record FoundEntry := {
  keyword : pystr;
  foundAt : pystr
}.

(** A row of the [ezynotify] table as [process_row] reads it: the columns
    after their defaults ([row.get("keywords") or {}] then
    [.get("keywords", [])], [row.get("reference") or ""], and so on), the
    flags by their truth value. *)
Record Row := {
  row_id : N;
  row_url : pystr;
  row_keywords : list pystr;
  row_reference : pystr;
  row_foundKeyword : list FoundEntry;
  row_Updates : list Change;
  row_telegramID : option pystr;
  row_shouldSendDetailedUpdates : bool;
  row_checkUpdates : bool;
  row_shouldContinueCheck : bool;
  row_completed : bool
}.

(** The dictionary [update_data]: a key is staged when its field is [Some]. *)
Record update_data := {
  upd_reference : option pystr;
  upd_keywords : option (list pystr);
  upd_foundKeyword : option (list FoundEntry);
  upd_completed : option bool;
  upd_isUpdated : option bool;
  upd_Updates : option (list Change)
}.

Definition empty_update : update_data :=
  {| upd_reference := None; upd_keywords := None; upd_foundKeyword := None;
     upd_completed := None; upd_isUpdated := None; upd_Updates := None |}.

Definition is_some {A} (o : option A) : bool :=
  match o with Some _ => true | None => false end.

(** [if update_data:] *)
Definition update_nonempty (u : update_data) : bool :=
  is_some (upd_reference u) || is_some (upd_keywords u)
  || is_some (upd_foundKeyword u) || is_some (upd_completed u)
  || is_some (upd_isUpdated u) || is_some (upd_Updates u).

(** Truth value of an optional string (a token or a chat id). *)
Definition truthy (o : option pystr) : bool :=
  match o with Some s => nonempty s | None => false end.

(** ** Effects *)

(** One constructor per [print] of the script, with the values it shows. *)
Inductive log :=
| LogTelegramMissing (is_update : bool)
| LogTelegramFailed
| LogTelegramError
| LogFetching (url : pystr)
| LogFetchError (url : pystr)
| LogSkipCompleted (url : pystr)
| LogSkipNoWork (url : pystr)
| LogKeywordsFound (new_found : list FoundEntry)
| LogMarkCompleted
| LogChangeDetected
| LogUpdates (text_diffs : list Change)
| LogNoChange
| LogUpdated (url : pystr)
| LogFetchingRows
| LogFoundRows (n : nat)
| LogProcessingRow (i n : nat) (url : pystr)
| LogNoData
| LogErrorFetchingData.

(** The calls that leave the script: [print], [driver.get], [requests.post],
    the update and the listing of the store, [time.sleep],
    [setup_selenium_driver] and [driver.quit]. *)
Inductive event :=
| Print (l : log)
| Browse (url : pystr)
| Post (bot_token chat_id message : pystr)
| Update (id : N) (data : update_data) (ok : bool)
| Select
| Sleep (seconds : nat)
| StartDriver
| CloseDriver.

(** Outcome of [requests.post]. *)
Inductive response := Status200 | StatusOther | PostRaised.

(** Outcome of the Selenium session of [get_text_from_url]: the driver could
    not be set up, loading the page or waiting for its body raised, the text
    of the page body, or reading that text raised. *)
Inductive fetched :=
| DriverFailed
| PageFailed
| BodyText (text : pystr)
| TextFailed.

(** What the script takes from outside: the string methods and the differ of
    the Python library, and the answers of the clock, the browser, Telegram
    and Supabase at each step ([nat] counts the external calls made so far).
    [ndiff a b] is the list of the lines that [difflib.ndiff(a, b)] yields,
    or [None] when it raises [RecursionError]. *)
Record Runtime := {
  str_lower : pystr -> pystr;
  str_title : pystr -> pystr;
  ndiff : list pystr -> list pystr -> option (list pystr);
  now : nat -> pystr;
  selenium : nat -> pystr -> fetched;
  post : nat -> pystr -> pystr -> pystr -> response;
  execute_update : nat -> N -> update_data -> bool;
  execute_select : nat -> option (list Row);
  TELEGRAM_BOT_TOKEN : option pystr;
  TELEGRAM_UPDATES_BOT_TOKEN : option pystr
}.

(** The exceptions that leave a function of the script: the one of the
    Supabase client, and the [RecursionError] of [difflib]. *)
Inductive exn := SupabaseError | RecursionError.

Inductive result (A : Type) :=
| Ok (a : A)
| Raise (e : exn).
Arguments Ok {A} a.
Arguments Raise {A} e.

(** A computation from the step counter to a result, the new counter and the
    events it caused, oldest first. *)
Definition M (A : Type) : Type := nat -> result A * nat * list event.

Definition ret {A} (a : A) : M A := fun t => (Ok a, t, []).

Definition bind {A B} (m : M A) (f : A -> M B) : M B :=
  fun t =>
    match m t with
    | (Ok a, t1, e1) =>
        let '(r, t2, e2) := f a t1 in (r, t2, e1 ++ e2)
    | (Raise e, t1, e1) => (Raise e, t1, e1)
    end.

(** [try: m  except Exception as e: h] *)
Definition try_except {A} (m : M A) (h : exn -> M A) : M A :=
  fun t =>
    match m t with
    | (Ok a, t1, e1) => (Ok a, t1, e1)
    | (Raise e, t1, e1) =>
        let '(r, t2, e2) := h e t1 in (r, t2, e1 ++ e2)
    end.

Definition raise {A} (e : exn) : M A := fun t => (Raise e, t, []).

Definition emit (e : event) : M unit := fun t => (Ok tt, t, [e]).
Definition print (l : log) : M unit := emit (Print l).

Declare Scope py_scope.
Delimit Scope py_scope with py.
Notation "x <- m ;; k" := (bind m (fun x => k))
  (at level 100, m at next level, right associativity) : py_scope.
Notation "m ;; k" := (bind m (fun _ => k))
  (at level 100, right associativity) : py_scope.
Local Open Scope py_scope.

Definition events {A} (x : result A * nat * list event) : list event := snd x.
Definition outcome {A} (x : result A * nat * list event) : result A :=
  fst (fst x).
Definition steps {A} (x : result A * nat * list event) : nat := snd (fst x).

(** ** The script *)

Definition nl : pystr := [10%N].

(** [re.split(r'(?<=[.!?])\s+', text)]: a separator is a maximal run of
    whitespace that directly follows ['.'], ['!'] or ['?']. *)
Definition is_terminator (c : char) : bool :=
  ((c =? 46) || (c =? 33) || (c =? 63))%N.

(** [cur] is the piece being read, most recent character first;
    [after_terminator] tells whether the previous character ends a sentence;
    [in_separator] whether a separator is being skipped. *)
Fixpoint re_split_from (cur : pystr) (after_terminator in_separator : bool)
    (text : pystr) : list pystr :=
  match text with
  | [] => [rev cur]
  | c :: text' =>
      if in_separator
      then (if isspace c then re_split_from cur false true text'
            else re_split_from [c] (is_terminator c) false text')
      else if isspace c && after_terminator
      then rev cur :: re_split_from [] false true text'
      else re_split_from (c :: cur) (is_terminator c) false text'
  end.

Definition re_split (text : pystr) : list pystr :=
  re_split_from [] false false text.

Definition split_sentences (text : pystr) : list pystr :=
  filter nonempty (map strip (re_split text)).

(** [min(l)] and [max(l)] of a non-empty list. *)
Definition py_min (l : list nat) : nat :=
  match l with [] => 0 | x :: l' => fold_left Nat.min l' x end.
Definition py_max (l : list nat) : nat :=
  match l with [] => 0 | x :: l' => fold_left Nat.max l' x end.

Definition enumerate {A} (start : nat) (l : list A) : list (nat * A) :=
  combine (seq start (length l)) l.

(** The lines of the word diff that start with ['+ '], each with its
    position in the diff and the text after the two-character prefix. *)
Definition inserted_lines (word_diff : list pystr) : list (nat * pystr) :=
  map (fun p : nat * pystr => (fst p, skipn 2 (snd p)))
      (filter (fun p : nat * pystr => startswith (snd p) (lit "+ "))
              (enumerate 0 word_diff)).

Definition bold (word : pystr) : pystr := lit "<b>" ++ word ++ lit "</b>".

Definition bolded_context (change_indices : list nat) (context_start : nat)
    (context : list pystr) : list pystr :=
  map (fun p : nat * pystr =>
         if existsb (Nat.eqb (fst p)) change_indices
         then bold (snd p) else snd p)
      (enumerate context_start context).

Section Script.
Context (rt : Runtime).

(** [datetime.now().strftime("%Y-%m-%d %H:%M:%S")] *)
Definition strftime_now : M pystr := fun t => (Ok (now rt t), S t, []).

Definition send_telegram_notification (chat_id : option pystr)
    (message : pystr) (is_update : bool) : M unit :=
  let bot_token :=
    if is_update then TELEGRAM_UPDATES_BOT_TOKEN rt
    else TELEGRAM_BOT_TOKEN rt in
  match bot_token, chat_id with
  | Some token, Some chat =>
      if nonempty token && nonempty chat
      then fun t =>
             (Ok tt, S t,
              Post token chat message ::
              match post rt t token chat message with
              | Status200 => []
              | StatusOther => [Print LogTelegramFailed]
              | PostRaised => [Print LogTelegramError]
              end)
      else print (LogTelegramMissing is_update)
  | _, _ => print (LogTelegramMissing is_update)
  end.

(** The handler of [get_text_from_url] catches what the session raises and
    makes the function return the empty string.  [driver.get] is reached
    only with a driver, [time.sleep(2)] only once the body of the page is
    there, and the [finally] clause closes the driver if there is one; that
    call of [driver.quit] is taken to return. *)
Definition get_text_from_url (url : pystr) : M pystr :=
  fun t =>
    match selenium rt t url with
    | DriverFailed =>
        (Ok [], S t, [StartDriver; Print (LogFetchError url)])
    | PageFailed =>
        (Ok [], S t,
         [StartDriver; Print (LogFetching url); Browse url;
          Print (LogFetchError url); CloseDriver])
    | TextFailed =>
        (Ok [], S t,
         [StartDriver; Print (LogFetching url); Browse url; Sleep 2;
          Print (LogFetchError url); CloseDriver])
    | BodyText text =>
        (Ok (str_lower rt text), S t,
         [StartDriver; Print (LogFetching url); Browse url; Sleep 2;
          CloseDriver])
    end.

(** The body of the sentence loop of [get_diff] for one pair of unequal
    sentences: the change dictionary, if any token was inserted.  The loop
    over [word_diff] consumes the generator of [difflib.ndiff]; when that
    raises [RecursionError], nothing has been printed or appended, and the
    exception leaves [get_diff]. *)
Definition word_diff_change (old_sent new_sent : pystr)
    : M (option Change) :=
  let old_words := split old_sent in
  let new_words := split new_sent in
  match ndiff rt old_words new_words with
  | None => raise RecursionError
  | Some word_diff =>
      let changed_words := map snd (inserted_lines word_diff) in
      let change_indices := map fst (inserted_lines word_diff) in
      if nonempty changed_words then
        let first_change := py_min change_indices in
        let last_change := py_max change_indices in
        let context_start := Nat.max 0 (first_change - 2) in
        let context_end := Nat.min (length new_words) (last_change + 3) in
        let context := slice new_words context_start context_end in
        let full_context :=
          join (lit " ")
               (bolded_context change_indices context_start context) in
        stamp <- strftime_now ;;
        ret (Some {| change := join (lit " ") changed_words;
                     action := lit "added";
                     context := Some full_context;
                     time := stamp |})
      else ret None
  end.

Fixpoint compare_sentences (pairs : list (pystr * pystr))
    : M (list Change) :=
  match pairs with
  | [] => ret []
  | (old_sent, new_sent) :: pairs' =>
      if negb (PyStr.eqb old_sent new_sent) then
        c <- word_diff_change old_sent new_sent ;;
        rest <- compare_sentences pairs' ;;
        ret (match c with Some ch => ch :: rest | None => rest end)
      else compare_sentences pairs'
  end.

Definition get_diff (old_text new_text : pystr) : M (list Change) :=
  let old_sentences := split_sentences old_text in
  let new_sentences := split_sentences new_text in
  compare_sentences (combine old_sentences new_sentences).

(** One line group of [format_updates_message] for a change. *)
Definition render_change (c : Change) : pystr :=
  let emoji :=
    if PyStr.eqb (action c) (lit "added") then [128994%N] else [128308%N] in
  emoji ++ lit " <b>" ++ str_title rt (action c) ++ lit ":</b> "
    ++ change c ++ nl
    ++ match context c with
       | Some ctx =>
           if nonempty ctx
           then lit "   <i>Context:</i> " ++ ctx ++ nl
           else []
       | None => []
       end.

Definition last_n {A} (n : nat) (l : list A) : list A :=
  skipn (length l - n) l.

Definition truncation_notice : pystr :=
  nl ++ nl ++ lit "... (message truncated due to length)".

(** The message of [format_updates_message] before its length check. *)
Definition updates_message_body (url : pystr) (updates : list Change)
    (new_detected_changes : list Change) : pystr :=
  let message :=
    [128260%N] ++ lit " <b>Website Changes Detected</b>" ++ nl ++ nl
      ++ lit "<b>URL:</b> " ++ url ++ nl ++ nl in
  let message :=
    if nonempty new_detected_changes
    then message ++ lit "<b>New Changes:</b>" ++ nl
           ++ concat (map render_change new_detected_changes) ++ nl
    else message in
  if nonempty updates
  then message ++ lit "<b>Previous Changes:</b>" ++ nl
         ++ concat (map render_change (last_n 5 updates))
  else message.

Definition format_updates_message (url : pystr) (updates : list Change)
    (new_detected_changes : list Change) : pystr :=
  let message := updates_message_body url updates new_detected_changes in
  if 4096 <? length message
  then firstn 4000 message ++ truncation_notice
  else message.

(** State of the keyword loop of [process_row]; [timestamp] is unbound
    ([None]) until a keyword is found. *)
Record kw_state := {
  new_found : list FoundEntry;
  found_keywords : list pystr;
  remaining_keywords : list pystr;
  timestamp : option pystr
}.

Definition keyword_step (new_text : pystr) (st : kw_state)
    (kw : pystr) : M kw_state :=
  if contains new_text kw then
    stamp <- strftime_now ;;
    ret {| new_found :=
             new_found st ++ [{| keyword := kw; foundAt := stamp |}];
           found_keywords := found_keywords st ++ [kw];
           remaining_keywords :=
             if mem kw (remaining_keywords st)
             then remove_first kw (remaining_keywords st)
             else remaining_keywords st;
           timestamp := Some stamp |}
  else ret st.

Fixpoint keyword_loop (new_text : pystr) (keyword_list : list pystr)
    (st : kw_state) : M kw_state :=
  match keyword_list with
  | [] => ret st
  | kw :: rest =>
      st' <- keyword_step new_text st kw ;;
      keyword_loop new_text rest st'
  end.

(** The text shown for [{timestamp}]; the variable is bound whenever a
    keyword message is built. *)
Definition shown (timestamp : option pystr) : pystr :=
  match timestamp with Some stamp => stamp | None => [] end.

Definition bullet (kw : pystr) : pystr := [8226%N] ++ lit " " ++ kw.

Definition keyword_message (found : list pystr) (url : pystr)
    (timestamp : option pystr) : pystr :=
  match found with
  | [kw] =>
      [128276%N] ++ lit " <b>Keyword Found!</b>" ++ nl ++ nl
        ++ lit "<b>Keyword:</b> " ++ kw ++ nl
        ++ lit "<b>URL:</b> " ++ url ++ nl
        ++ lit "<b>Found at:</b> " ++ shown timestamp
  | _ =>
      [128276%N] ++ lit " <b>Multiple Keywords Found!</b>" ++ nl ++ nl
        ++ lit "<b>Keywords:</b>" ++ nl
        ++ join nl (map bullet found) ++ nl ++ nl
        ++ lit "<b>URL:</b> " ++ url ++ nl
        ++ lit "<b>Found at:</b> " ++ shown timestamp
  end.

Definition short_update_message (url stamp : pystr) : pystr :=
  [128260%N] ++ lit " <b>Website Changes Detected</b>" ++ nl ++ nl
    ++ lit "<b>URL:</b> " ++ url ++ nl
    ++ lit "<b>Changes detected at:</b> " ++ stamp ++ nl ++ nl
    ++ [8505%N; 65039%N]
    ++ lit " Detailed updates are available but not shown. Enable detailed updates to see them.".

(** The block [if keyword_list: ...] of [process_row]. *)
Definition process_keywords (row : Row) (keyword_list : list pystr)
    (new_text : pystr) (update : update_data) : M update_data :=
  if nonempty keyword_list then
    st <- keyword_loop new_text keyword_list
            {| new_found := []; found_keywords := [];
               remaining_keywords := map (str_lower rt) (row_keywords row);
               timestamp := None |} ;;
    print (LogKeywordsFound (new_found st)) ;;
    (if truthy (row_telegramID row) && nonempty (found_keywords st)
     then send_telegram_notification (row_telegramID row)
            (keyword_message (found_keywords st) (row_url row)
               (timestamp st))
            false
     else ret tt) ;;
    let update :=
      {| upd_reference := upd_reference update;
         upd_keywords := Some (remaining_keywords st);
         upd_foundKeyword := Some (row_foundKeyword row ++ new_found st);
         upd_completed := upd_completed update;
         upd_isUpdated := upd_isUpdated update;
         upd_Updates := upd_Updates update |} in
    if negb (nonempty (remaining_keywords st))
       && negb (row_shouldContinueCheck row)
    then
      print LogMarkCompleted ;;
      ret {| upd_reference := upd_reference update;
             upd_keywords := upd_keywords update;
             upd_foundKeyword := upd_foundKeyword update;
             upd_completed := Some true;
             upd_isUpdated := upd_isUpdated update;
             upd_Updates := upd_Updates update |}
    else ret update
  else ret update.

(** The block [if check_updates: ...] of [process_row]. *)
Definition process_updates (row : Row) (new_text : pystr)
    (update : update_data) : M update_data :=
  if row_checkUpdates row then
    if nonempty (strip (row_reference row))
       && negb (PyStr.eqb new_text (row_reference row))
    then
      print LogChangeDetected ;;
      text_diffs <- get_diff (row_reference row) new_text ;;
      (if nonempty text_diffs then print (LogUpdates text_diffs)
       else ret tt) ;;
      let new_detected_changes := text_diffs in
      let updates_log := row_Updates row ++ text_diffs in
      let update :=
        {| upd_reference := upd_reference update;
           upd_keywords := upd_keywords update;
           upd_foundKeyword := upd_foundKeyword update;
           upd_completed := upd_completed update;
           upd_isUpdated := Some true;
           upd_Updates := Some updates_log |} in
      (if truthy (row_telegramID row) then
         message <-
           (if row_shouldSendDetailedUpdates row
            then ret (format_updates_message (row_url row) updates_log
                        new_detected_changes)
            else stamp <- strftime_now ;;
                 ret (short_update_message (row_url row) stamp)) ;;
         send_telegram_notification (row_telegramID row) message true
       else ret tt) ;;
      ret update
    else
      print LogNoChange ;;
      ret update
  else ret update.

(** [supabase.table("ezynotify").update(update_data).eq("id", row_id)
    .execute()]; the client raises when the write fails. *)
Definition supabase_update (id : N) (data : update_data) : M unit :=
  fun t =>
    if execute_update rt t id data
    then (Ok tt, S t, [Update id data true])
    else (Raise SupabaseError, S t, [Update id data false]).

Definition process_row (row : Row) : M unit :=
  if row_completed row then print (LogSkipCompleted (row_url row))
  else
    let keyword_list := map (str_lower rt) (row_keywords row) in
    if negb (nonempty keyword_list) && negb (row_checkUpdates row)
    then print (LogSkipNoWork (row_url row))
    else
      new_text <- get_text_from_url (row_url row) ;;
      let update :=
        if negb (PyStr.eqb new_text (row_reference row))
        then {| upd_reference := Some new_text; upd_keywords := None;
                upd_foundKeyword := None; upd_completed := None;
                upd_isUpdated := None; upd_Updates := None |}
        else empty_update in
      update <- process_keywords row keyword_list new_text update ;;
      update <- process_updates row new_text update ;;
      if update_nonempty update then
        supabase_update (row_id row) update ;;
        print (LogUpdated (row_url row))
      else ret tt.

(** [supabase.table("ezynotify").select(...).execute()] *)
Definition supabase_select : M (list Row) :=
  fun t =>
    match execute_select rt t with
    | Some rows => (Ok rows, S t, [Select])
    | None => (Raise SupabaseError, S t, [Select])
    end.

(** The loop [for i, row in enumerate(response.data, 1)]. *)
Fixpoint process_rows (i n : nat) (rows : list Row) : M unit :=
  match rows with
  | [] => ret tt
  | row :: rows' =>
      print (LogProcessingRow i n (row_url row)) ;;
      process_row row ;;
      emit (Sleep 1) ;;
      process_rows (S i) n rows'
  end.

Definition main : M unit :=
  print LogFetchingRows ;;
  try_except
    (data <- supabase_select ;;
     if nonempty data
     then print (LogFoundRows (length data)) ;;
          process_rows 1 (length data) data
     else print LogNoData)
    (fun _ => print LogErrorFetchingData).

End Script.

(** ** A concrete run-time for the examples

    CPython's differ with the room that the script leaves it, the string
    methods on ASCII text, a clock that shows the number of the reading, a
    page per URL, Telegram answering 200 and a store whose writes succeed
    except for the listed row ids. *)

Module Examples.

Definition stamp (n : nat) : pystr :=
  lit "2024-01-01 00:00:0" ++ [N.of_nat (48 + n)].

Definition cpython (page : pystr -> fetched) (failing : list N)
    (rows : option (list Row)) : Runtime :=
  {| str_lower := ascii_lower;
     str_title := ascii_title;
     ndiff := Difflib.ndiff Difflib.script_room;
     now := stamp;
     selenium := fun _ url => page url;
     post := fun _ _ _ _ => Status200;
     execute_update := fun _ id _ => negb (existsb (N.eqb id) failing);
     execute_select := fun _ => rows;
     TELEGRAM_BOT_TOKEN := Some (lit "bot-token");
     TELEGRAM_UPDATES_BOT_TOKEN := Some (lit "updates-token") |}.

Definition offline : Runtime := cpython (fun _ => PageFailed) [] None.

Definition sale_page (url : pystr) : fetched :=
  BodyText (lit "Big SALE today.").

(** A row that waits for one keyword and stops once it is found. *)
Definition row_sale : Row :=
  {| row_id := 1;
     row_url := lit "https://a.example";
     row_keywords := [lit "sale"];
     row_reference := lit "";
     row_foundKeyword := [];
     row_Updates := [];
     row_telegramID := Some (lit "42");
     row_shouldSendDetailedUpdates := true;
     row_checkUpdates := true;
     row_shouldContinueCheck := false;
     row_completed := false |}.

(** A row that waits for two keywords, the second of which is not on the
    page. *)
Definition row_launch : Row :=
  {| row_id := 2;
     row_url := lit "https://b.example";
     row_keywords := [lit "today"; lit "launch"; lit "big"];
     row_reference := lit "big sale today.";
     row_foundKeyword := [];
     row_Updates := [];
     row_telegramID := Some (lit "42");
     row_shouldSendDetailedUpdates := false;
     row_checkUpdates := false;
     row_shouldContinueCheck := true;
     row_completed := false |}.

(** A row whose keyword is absent from the page and whose reference is
    blank. *)
Definition row_blank : Row :=
  {| row_id := 3;
     row_url := lit "https://c.example";
     row_keywords := [lit "refund"];
     row_reference := lit "   ";
     row_foundKeyword := [];
     row_Updates := [];
     row_telegramID := Some (lit "42");
     row_shouldSendDetailedUpdates := true;
     row_checkUpdates := true;
     row_shouldContinueCheck := true;
     row_completed := false |}.

(** A row with an address of 4121 characters, a keyword that is on the page
    and a baseline that differs from the page; detailed updates are off. *)
Definition long_url : pystr :=
  lit "https://a.example/?q=" ++ repeat 97%N 4100.

Definition row_long_url : Row :=
  {| row_id := 4;
     row_url := long_url;
     row_keywords := [lit "sale"];
     row_reference := lit "small sale today.";
     row_foundKeyword := [];
     row_Updates := [];
     row_telegramID := Some (lit "42");
     row_shouldSendDetailedUpdates := false;
     row_checkUpdates := true;
     row_shouldContinueCheck := true;
     row_completed := false |}.

(** [row_sale] after it was marked completed. *)
Definition row_done : Row :=
  {| row_id := 1;
     row_url := lit "https://a.example";
     row_keywords := [];
     row_reference := lit "big sale today.";
     row_foundKeyword :=
       [{| keyword := lit "sale"; foundAt := stamp 1 |}];
     row_Updates := [];
     row_telegramID := Some (lit "42");
     row_shouldSendDetailedUpdates := true;
     row_checkUpdates := true;
     row_shouldContinueCheck := false;
     row_completed := true |}.

(** What the cycle writes for [row_sale] when it starts at step 0. *)
Definition sale_update : update_data :=
  {| upd_reference := Some (lit "big sale today.");
     upd_keywords := Some [];
     upd_foundKeyword :=
       Some [{| keyword := lit "sale"; foundAt := stamp 1 |}];
     upd_completed := Some true;
     upd_isUpdated := None;
     upd_Updates := None |}.

(** A row whose keyword is absent from the page and whose reference is the
    text of the page. *)
Definition row_quiet : Row :=
  {| row_id := 5;
     row_url := lit "https://e.example";
     row_keywords := [lit "refund"];
     row_reference := lit "big sale today.";
     row_foundKeyword := [];
     row_Updates := [];
     row_telegramID := Some (lit "42");
     row_shouldSendDetailedUpdates := true;
     row_checkUpdates := true;
     row_shouldContinueCheck := true;
     row_completed := false |}.


(** What the cycle writes for [row_blank] when it starts at step 0. *)
Definition blank_update : update_data :=
  {| upd_reference := Some (lit "big sale today.");
     upd_keywords := Some [lit "refund"];
     upd_foundKeyword := Some [];
     upd_completed := None;
     upd_isUpdated := None;
     upd_Updates := None |}.

(** All writes succeed. *)
Definition healthy : Runtime :=
  cpython sale_page [] (Some [row_sale; row_launch]).

(** The write for row 1 fails. *)
Definition failing_store : Runtime :=
  cpython sale_page [1%N] (Some [row_sale; row_launch]).

End Examples.

(** ** Reading a trace *)

(** The messages posted to Telegram. *)
Definition posted (evs : list event) : list pystr :=
  flat_map (fun e => match e with Post _ _ m => [m] | _ => [] end) evs.

(** The pages opened in the browser. *)
Definition browsed (evs : list event) : list pystr :=
  flat_map (fun e => match e with Browse url => [url] | _ => [] end) evs.

(** The store writes attempted, with the row id and whether they went
    through. *)
Definition writes (evs : list event) : list (N * update_data * bool) :=
  flat_map (fun e => match e with
                     | Update id data ok => [(id, data, ok)]
                     | _ => []
                     end) evs.

(** The rows whose store write failed. *)
Definition failed_writes (evs : list event) : list N :=
  flat_map (fun e => match e with
                     | Update id _ false => [id]
                     | _ => []
                     end) evs.

(** An event that is not a store write. *)
Definition not_update (e : event) : Prop :=
  match e with Update _ _ _ => False | _ => True end.

(** [m] at step [t] returns normally and writes nothing to the store. *)
Definition returns {A} (m : M A) (t : nat) (a : A) : Prop :=
  outcome (m t) = Ok a /\ Forall not_update (events (m t)).

(** [row] with another stored reference. *)
Definition with_reference (row : Row) (reference : pystr) : Row :=
  {| row_id := row_id row;
     row_url := row_url row;
     row_keywords := row_keywords row;
     row_reference := reference;
     row_foundKeyword := row_foundKeyword row;
     row_Updates := row_Updates row;
     row_telegramID := row_telegramID row;
     row_shouldSendDetailedUpdates := row_shouldSendDetailedUpdates row;
     row_checkUpdates := row_checkUpdates row;
     row_shouldContinueCheck := row_shouldContinueCheck row;
     row_completed := row_completed row |}.

(** ** The blocks of [process_row] in closed form

    What the keyword block and the update block stage and send, written
    without the loop and the monad; the lemmas below relate them to the
    script. *)

Section ClosedForms.
Context (rt : Runtime).

(** The entries appended for the keywords [found], the first of them
    stamped at clock reading [t]. *)
Fixpoint stamped (t : nat) (found : list pystr) : list FoundEntry :=
  match found with
  | [] => []
  | kw :: rest =>
      {| keyword := kw; foundAt := now rt t |} :: stamped (S t) rest
  end.

Definition drop_found (remaining : list pystr) (kw : pystr) : list pystr :=
  if mem kw remaining then remove_first kw remaining else remaining.

(** The stamp left in [timestamp] after the loop found [found]. *)
Definition last_stamp (t : nat) (found : list pystr)
    (before : option pystr) : option pystr :=
  match found with
  | [] => before
  | _ :: _ => Some (now rt (t + length found - 1))
  end.

Definition found_in (row : Row) (T : pystr) : list pystr :=
  filter (contains T) (map (str_lower rt) (row_keywords row)).

Definition remaining_after (row : Row) (T : pystr) : list pystr :=
  fold_left drop_found (found_in row T)
            (map (str_lower rt) (row_keywords row)).

Definition all_found_and_stop (row : Row) (T : pystr) : bool :=
  negb (nonempty (remaining_after row T))
  && negb (row_shouldContinueCheck row).

Definition keywords_staged (row : Row) (T : pystr) (u : update_data)
    (t : nat) : update_data :=
  {| upd_reference := upd_reference u;
     upd_keywords := Some (remaining_after row T);
     upd_foundKeyword :=
       Some (row_foundKeyword row ++ stamped t (found_in row T));
     upd_completed :=
       if all_found_and_stop row T then Some true else upd_completed u;
     upd_isUpdated := upd_isUpdated u;
     upd_Updates := upd_Updates u |}.

Definition keyword_notification (row : Row) (T : pystr) (t : nat)
    : M unit :=
  if truthy (row_telegramID row) && nonempty (found_in row T)
  then send_telegram_notification rt (row_telegramID row)
         (keyword_message (found_in row T) (row_url row)
            (last_stamp t (found_in row T) None))
         false
  else ret tt.

(** The update block compares texts exactly when this holds. *)
Definition diff_needed (row : Row) (T : pystr) : bool :=
  row_checkUpdates row
  && (nonempty (strip (row_reference row))
      && negb (PyStr.eqb T (row_reference row))).

(** The differ returns on every pair of sentences that the loop of
    [get_diff] hands to it: none of them makes it raise. *)
Definition differ_returns (pairs : list (pystr * pystr)) : bool :=
  forallb (fun p => PyStr.eqb (fst p) (snd p)
                    || is_some (ndiff rt (split (fst p)) (split (snd p))))
          pairs.

Definition diff_returns (old_text new_text : pystr) : bool :=
  differ_returns
    (combine (split_sentences old_text) (split_sentences new_text)).

(** The update block of [row] returns for the page text [T]: it makes no
    comparison, or the differ returns on it. *)
Definition updates_return (row : Row) (T : pystr) : bool :=
  negb (diff_needed row T) || diff_returns (row_reference row) T.

Definition update_notification (row : Row) (updates_log text_diffs :
    list Change) : M unit :=
  if truthy (row_telegramID row) then
    message <-
      (if row_shouldSendDetailedUpdates row
       then ret (format_updates_message rt (row_url row) updates_log
                   text_diffs)
       else stamp <- strftime_now rt ;;
            ret (short_update_message (row_url row) stamp)) ;;
    send_telegram_notification rt (row_telegramID row) message true
  else ret tt.

Definition updates_staged (row : Row) (u : update_data)
    (text_diffs : list Change) : update_data :=
  {| upd_reference := upd_reference u;
     upd_keywords := upd_keywords u;
     upd_foundKeyword := upd_foundKeyword u;
     upd_completed := upd_completed u;
     upd_isUpdated := Some true;
     upd_Updates := Some (row_Updates row ++ text_diffs) |}.

(** [update_data] as it stands after the fetch. *)
Definition initial_update (row : Row) (T : pystr) : update_data :=
  if negb (PyStr.eqb T (row_reference row))
  then {| upd_reference := Some T; upd_keywords := None;
          upd_foundKeyword := None; upd_completed := None;
          upd_isUpdated := None; upd_Updates := None |}
  else empty_update.

Definition has_work (row : Row) : bool :=
  nonempty (map (str_lower rt) (row_keywords row)) || row_checkUpdates row.

(** The update proposal after the keyword block, for a row of either
    kind. *)
Definition after_keywords (row : Row) (T : pystr) (t1 : nat)
    : update_data :=
  if nonempty (map (str_lower rt) (row_keywords row))
  then keywords_staged row T (initial_update row T) t1
  else initial_update row T.

End ClosedForms.

(** A row that the cycle neither skips as completed nor as without work. *)
Definition active (rt : Runtime) (row : Row) : bool :=
  negb (row_completed row) && has_work rt row.

(** An event of a notification: a post or a console line. *)
Definition talk (e : event) : Prop :=
  match e with
  | Post _ _ _ | Print _ => True
  | _ => False
  end.

(** The pauses made, in seconds: two after a page has loaded, one after each
    row of the cycle. *)
Definition pauses (evs : list event) : list nat :=
  flat_map (fun e => match e with Sleep n => [n] | _ => [] end) evs.

(** [kw not in T] *)
Definition absent (T kw : pystr) : bool := negb (contains T kw).

(** All the text rendered for a list of changes. *)
Definition render_changes (rt : Runtime) (l : list Change) : pystr :=
  concat (map (render_change rt) l).

(** ** Further scenarios *)

Module Scenarios.

(** A run-time like [Examples.healthy] where Selenium fails on every page. *)
Definition unreachable : Runtime :=
  Examples.cpython (fun _ => PageFailed) [] (Some [Examples.row_quiet]).

(** A run-time whose table is empty, and one whose listing raises. *)
Definition empty_table : Runtime :=
  Examples.cpython Examples.sale_page [] (Some []).

Definition no_listing : Runtime :=
  Examples.cpython Examples.sale_page [] None.

(** A change record of the log. *)
Definition logged (n : nat) : Change :=
  {| change := lit "word" ++ [N.of_nat (48 + n)];
     action := lit "added";
     context := Some (lit "a <b>word</b> b");
     time := Examples.stamp n |}.

(** A row without keywords whose reference is the text of the page. *)
Definition row_watch : Row :=
  {| row_id := 6;
     row_url := lit "https://f.example";
     row_keywords := [];
     row_reference := lit "big sale today.";
     row_foundKeyword := [];
     row_Updates := [logged 1];
     row_telegramID := Some (lit "42");
     row_shouldSendDetailedUpdates := true;
     row_checkUpdates := true;
     row_shouldContinueCheck := true;
     row_completed := false |}.

(** A row whose keyword is written with a capital and is on the page in
    lower case, and one whose keyword is not on the page in either case. *)
Definition row_mixed_case : Row :=
  {| row_id := 8;
     row_url := lit "https://h.example";
     row_keywords := [lit "Sale"];
     row_reference := lit "";
     row_foundKeyword := [];
     row_Updates := [];
     row_telegramID := Some (lit "42");
     row_shouldSendDetailedUpdates := true;
     row_checkUpdates := false;
     row_shouldContinueCheck := true;
     row_completed := false |}.

Definition row_capital : Row :=
  {| row_id := 9;
     row_url := lit "https://i.example";
     row_keywords := [lit "Refund"];
     row_reference := lit "";
     row_foundKeyword := [];
     row_Updates := [];
     row_telegramID := Some (lit "42");
     row_shouldSendDetailedUpdates := true;
     row_checkUpdates := false;
     row_shouldContinueCheck := true;
     row_completed := false |}.

(** One sentence of 600 times the word "x", and the same sentence behind
    the word "p": the words of the page and of the stored reference of
    [row_deep].  A word that makes up more than a hundredth of a sentence of
    200 words or more is left out of the index of [SequenceMatcher], so the
    two sentences are one [replace] block, and [_fancy_replace] goes one
    level deeper for each of the 600 pairs of equal words. *)
Definition deep_new_words : list pystr := repeat (lit "x") 600.
Definition deep_old_words : list pystr := lit "p" :: deep_new_words.
Definition deep_new : pystr := join (lit " ") deep_new_words.
Definition deep_old : pystr := join (lit " ") deep_old_words.

Definition row_deep : Row :=
  {| row_id := 7;
     row_url := lit "https://g.example";
     row_keywords := [lit "sale"];
     row_reference := deep_old;
     row_foundKeyword := [];
     row_Updates := [];
     row_telegramID := Some (lit "42");
     row_shouldSendDetailedUpdates := true;
     row_checkUpdates := true;
     row_shouldContinueCheck := true;
     row_completed := false |}.

(** A run-time whose pages all show [deep_new], with [row_deep] first in
    the table. *)
Definition deep_page : Runtime :=
  Examples.cpython (fun _ => BodyText deep_new) []
    (Some [row_deep; Examples.row_launch]).

(** A table with a completed row between two active ones. *)
Definition mixed_table : Runtime :=
  Examples.cpython Examples.sale_page []
    (Some [Examples.row_sale; Examples.row_done; Examples.row_launch]).

End Scenarios.

(** * Properties *)

(** ** Strings *)

Lemma eqb_refl (s : pystr) : PyStr.eqb s s = true.
Proof.
  induction s as [|c s IH]; simpl; [reflexivity|].
  now rewrite N.eqb_refl, IH.
Qed.

Lemma eqb_eq (a b : pystr) : PyStr.eqb a b = true <-> a = b.
Proof.
  split; [|intros ->; apply eqb_refl].
  revert b; induction a as [|x a IH]; intros [|y b]; simpl;
    try discriminate; [reflexivity|].
  intros H; apply andb_prop in H as [Hx Hab].
  apply N.eqb_eq in Hx; subst y. f_equal. now apply IH.
Qed.

Lemma eqb_neq (a b : pystr) : PyStr.eqb a b = false <-> a <> b.
Proof.
  split.
  - intros H ->. rewrite eqb_refl in H. discriminate.
  - intros H. destruct (PyStr.eqb a b) eqn:E; [|reflexivity].
    apply eqb_eq in E. contradiction.
Qed.

Lemma lstrip_blank (s : pystr) : forallb isspace s = true -> lstrip s = [].
Proof.
  induction s as [|c s IH]; simpl; [reflexivity|].
  intros H. apply andb_prop in H as [Hc Hs]. rewrite Hc. now apply IH.
Qed.

Lemma strip_blank (s : pystr) : forallb isspace s = true -> strip s = [].
Proof.
  intros H. unfold strip. now rewrite (lstrip_blank s H).
Qed.

(** ** The monad *)

Lemma run_eta {A} (x : result A * nat * list event) :
  x = (outcome x, steps x, events x).
Proof. now destruct x as [[r t] e]. Qed.

Lemma bind_silent {A B} (m : M A) (f : A -> M B) t a t1 :
  m t = (Ok a, t1, []) -> bind m f t = f a t1.
Proof.
  intros H. unfold bind. rewrite H.
  now destruct (f a t1) as [[r t2] e2].
Qed.

Lemma bind_raise {A B} (m : M A) (f : A -> M B) t e t1 ev :
  m t = (Raise e, t1, ev) -> bind m f t = (Raise e, t1, ev).
Proof. intros H. unfold bind. now rewrite H. Qed.

Lemma returns_bind {A B} (m : M A) (f : A -> M B) t a b :
  returns m t a -> returns (f a) (steps (m t)) b -> returns (bind m f) t b.
Proof.
  unfold returns, bind, outcome, steps, events.
  destruct (m t) as [[r t1] e1]; simpl.
  intros [-> Qm]. destruct (f a t1) as [[r2 t2] e2]; simpl.
  intros [-> Qf]. split; [reflexivity|].
  apply Forall_app; split; assumption.
Qed.

Lemma returns_ret {A} (a : A) t : returns (ret a) t a.
Proof. split; [reflexivity|constructor]. Qed.

Lemma returns_print l t : returns (print l) t tt.
Proof. split; [reflexivity|]. repeat constructor. Qed.

(** ** The blocks of [process_row] *)

Section Blocks.
Context (rt : Runtime).

Lemma last_stamp_cons t kw found before :
  last_stamp rt (S t) found (Some (now rt t))
  = last_stamp rt t (kw :: found) before.
Proof.
  unfold last_stamp. destruct found as [|k l]; cbn [length];
    do 2 apply f_equal; lia.
Qed.

Lemma keyword_loop_run (T : pystr) (kws : list pystr) :
  forall (st : kw_state) (t : nat),
    keyword_loop rt T kws st t =
      (Ok {| new_found :=
               new_found st ++ stamped rt t (filter (contains T) kws);
             found_keywords :=
               found_keywords st ++ filter (contains T) kws;
             remaining_keywords :=
               fold_left drop_found (filter (contains T) kws)
                         (remaining_keywords st);
             timestamp :=
               last_stamp rt t (filter (contains T) kws) (timestamp st) |},
       t + length (filter (contains T) kws), []).
Proof.
  induction kws as [|kw kws IH]; intros st t; cbn [keyword_loop filter].
  - destruct st; unfold ret; simpl. rewrite !app_nil_r, Nat.add_0_r.
    reflexivity.
  - unfold bind at 1, keyword_step.
    destruct (contains T kw) eqn:E.
    + unfold bind, strftime_now, ret. rewrite IH.
      cbn [new_found found_keywords remaining_keywords timestamp].
      rewrite <- !app_assoc.
      rewrite (last_stamp_cons t kw _ (timestamp st)).
      cbn [stamped length app fold_left].
      replace (S t + length (filter (contains T) kws))
        with (t + S (length (filter (contains T) kws))) by lia.
      reflexivity.
    + unfold ret. rewrite IH. reflexivity.
Qed.

Lemma send_returns chat_id message is_update t :
  returns (send_telegram_notification rt chat_id message is_update) t tt.
Proof.
  unfold send_telegram_notification.
  destruct (if is_update then _ else _) as [token|];
    [destruct chat_id as [chat|]|]; try apply returns_print.
  destruct (nonempty token && nonempty chat); [|apply returns_print].
  split; [reflexivity|]. unfold events; simpl.
  constructor; [exact I|].
  destruct (post rt t token chat message); repeat constructor.
Qed.

Lemma get_text_returns url t :
  exists T, returns (get_text_from_url rt url) t T.
Proof.
  unfold get_text_from_url, returns, outcome, events.
  destruct (selenium rt t url); eexists; simpl;
    (split; [reflexivity|repeat constructor]).
Qed.

Lemma word_diff_change_run old_sent new_sent t :
  if is_some (ndiff rt (split old_sent) (split new_sent))
  then exists c t', word_diff_change rt old_sent new_sent t = (Ok c, t', [])
  else word_diff_change rt old_sent new_sent t = (Raise RecursionError, t, []).
Proof.
  unfold word_diff_change.
  destruct (ndiff rt (split old_sent) (split new_sent)) as [word_diff|];
    cbn [is_some]; [|reflexivity].
  destruct (nonempty (map snd (inserted_lines word_diff))).
  - unfold bind, strftime_now, ret; simpl. eauto.
  - unfold ret. eauto.
Qed.

(** The sentence loop prints nothing; it returns when the differ returns on
    every pair, and raises [RecursionError] otherwise. *)
Lemma compare_sentences_run pairs :
  forall t, exists t',
    if differ_returns rt pairs
    then exists l, compare_sentences rt pairs t = (Ok l, t', [])
    else compare_sentences rt pairs t = (Raise RecursionError, t', []).
Proof.
  induction pairs as [|[old_sent new_sent] pairs IH]; intros t;
    cbn [compare_sentences differ_returns forallb fst snd].
  - exists t. now exists [].
  - destruct (PyStr.eqb old_sent new_sent); cbn [negb orb andb]; [apply IH|].
    pose proof (word_diff_change_run old_sent new_sent t) as Hc.
    destruct (is_some (ndiff rt (split old_sent) (split new_sent)));
      cbn [andb].
    + destruct Hc as (c & t1 & Hc).
      rewrite (bind_silent _ _ _ _ _ Hc).
      destruct (IH t1) as (t' & Hl). exists t'.
      fold (differ_returns rt pairs).
      destruct (differ_returns rt pairs).
      * destruct Hl as (l & Hl). rewrite (bind_silent _ _ _ _ _ Hl).
        unfold ret. eauto.
      * apply bind_raise, Hl.
    + exists t. apply bind_raise, Hc.
Qed.

Lemma get_diff_run old_text new_text t :
  exists t',
    if diff_returns rt old_text new_text
    then exists l, get_diff rt old_text new_text t = (Ok l, t', [])
    else get_diff rt old_text new_text t = (Raise RecursionError, t', []).
Proof. apply compare_sentences_run. Qed.

Lemma keyword_notification_returns row T t t0 :
  returns (keyword_notification rt row T t) t0 tt.
Proof.
  unfold keyword_notification.
  destruct (_ && _); [apply send_returns|apply returns_ret].
Qed.

Lemma process_keywords_run row T u t :
  nonempty (map (str_lower rt) (row_keywords row)) = true ->
  process_keywords rt row (map (str_lower rt) (row_keywords row)) T u t =
    (Ok (keywords_staged rt row T u t),
     steps (keyword_notification rt row T t (t + length (found_in rt row T))),
     Print (LogKeywordsFound (stamped rt t (found_in rt row T)))
       :: events (keyword_notification rt row T t
                    (t + length (found_in rt row T)))
       ++ (if all_found_and_stop rt row T then [Print LogMarkCompleted]
           else [])).
Proof.
  intros Hk. unfold process_keywords. rewrite Hk.
  rewrite (bind_silent _ _ _ _ _ (keyword_loop_run T _ _ t)).
  cbn [new_found found_keywords remaining_keywords timestamp app].
  fold (found_in rt row T). fold (remaining_after rt row T).
  fold (keyword_notification rt row T t).
  fold (all_found_and_stop rt row T).
  destruct (keyword_notification_returns row T t
              (t + length (found_in rt row T))) as [Ho _].
  destruct (keyword_notification rt row T t (t + length (found_in rt row T)))
    as [[r t1] e1] eqn:En.
  unfold outcome in Ho; simpl in Ho; subst r.
  unfold bind at 1, print, emit.
  unfold bind at 1. rewrite En.
  unfold keywords_staged, steps, events; simpl.
  destruct (all_found_and_stop rt row T); simpl; reflexivity.
Qed.

Lemma process_updates_idle row T u t :
  diff_needed row T = false ->
  process_updates rt row T u t =
    (Ok u, t, if row_checkUpdates row then [Print LogNoChange] else []).
Proof.
  unfold diff_needed, process_updates.
  destruct (row_checkUpdates row); simpl; [|reflexivity].
  intros ->. reflexivity.
Qed.

Lemma update_notification_returns row updates_log text_diffs t :
  returns (update_notification rt row updates_log text_diffs) t tt.
Proof.
  unfold update_notification.
  destruct (truthy (row_telegramID row)); [|apply returns_ret].
  destruct (row_shouldSendDetailedUpdates row).
  - eapply returns_bind; [apply returns_ret|apply send_returns].
  - eapply returns_bind; [|apply send_returns].
    split; [reflexivity|constructor].
Qed.

Lemma process_updates_diff row T u t :
  diff_needed row T = true ->
  diff_returns rt (row_reference row) T = true ->
  exists text_diffs t1,
    get_diff rt (row_reference row) T t = (Ok text_diffs, t1, []) /\
    process_updates rt row T u t =
      (Ok (updates_staged row u text_diffs),
       steps (update_notification rt row (row_Updates row ++ text_diffs)
                text_diffs t1),
       Print LogChangeDetected
         :: (if nonempty text_diffs then [Print (LogUpdates text_diffs)]
             else [])
         ++ events (update_notification rt row
                      (row_Updates row ++ text_diffs) text_diffs t1)).
Proof.
  unfold diff_needed, process_updates.
  destruct (row_checkUpdates row); simpl; [|discriminate].
  intros -> Hr.
  destruct (get_diff_run (row_reference row) T t) as (t1 & Hd).
  rewrite Hr in Hd. destruct Hd as (l & Hd).
  exists l, t1. split; [exact Hd|].
  unfold bind at 1, print, emit.
  rewrite (bind_silent _ _ _ _ _ Hd).
  fold (update_notification rt row (row_Updates row ++ l) l).
  destruct (update_notification_returns row (row_Updates row ++ l) l t1)
    as [Ho _].
  destruct (update_notification rt row (row_Updates row ++ l) l t1)
    as [[r t2] e2] eqn:En.
  unfold outcome in Ho; simpl in Ho; subst r.
  unfold bind at 1.
  destruct (nonempty l); simpl;
    unfold bind; rewrite En; unfold ret, steps, updates_staged; simpl;
    rewrite app_nil_r; reflexivity.
Qed.

(** When the differ raises, the update block has printed its first line
    only, and the exception leaves it. *)
Lemma process_updates_raise row T u t :
  updates_return rt row T = false ->
  exists t1,
    get_diff rt (row_reference row) T t = (Raise RecursionError, t1, []) /\
    process_updates rt row T u t
    = (Raise RecursionError, t1, [Print LogChangeDetected]).
Proof.
  unfold updates_return. intros H.
  apply orb_false_elim in H as [Hd Hr]. apply negb_false_iff in Hd.
  revert Hd. unfold diff_needed, process_updates.
  destruct (row_checkUpdates row); simpl; [|discriminate].
  intros ->.
  destruct (get_diff_run (row_reference row) T t) as (t1 & Hg).
  rewrite Hr in Hg. exists t1. split; [exact Hg|].
  unfold bind at 1, print, emit.
  rewrite (bind_raise _ _ _ _ _ _ Hg). reflexivity.
Qed.

Lemma process_updates_returns row T u t :
  updates_return rt row T = true ->
  exists u',
    returns (process_updates rt row T u) t u' /\
    upd_reference u' = upd_reference u /\
    upd_keywords u' = upd_keywords u /\
    upd_foundKeyword u' = upd_foundKeyword u /\
    upd_completed u' = upd_completed u /\
    (if diff_needed row T
     then upd_isUpdated u' = Some true
          /\ exists text_diffs,
               upd_Updates u' = Some (row_Updates row ++ text_diffs)
     else u' = u).
Proof.
  unfold updates_return. intros Hr.
  destruct (diff_needed row T) eqn:E.
  - destruct (process_updates_diff row T u t E Hr) as (l & t1 & _ & H).
    exists (updates_staged row u l). rewrite (run_eta _) in H.
    injection H as Ho _ He.
    repeat split; simpl; eauto.
    rewrite He. constructor; [exact I|].
    apply Forall_app; split.
    + destruct (nonempty l); repeat constructor.
    + apply update_notification_returns.
  - exists u. unfold returns.
    rewrite (process_updates_idle row T u t E).
    repeat split; simpl.
    destruct (row_checkUpdates row); repeat constructor.
Qed.

Lemma process_keywords_returns row T u t :
  exists u',
    returns (process_keywords rt row (map (str_lower rt) (row_keywords row))
               T u) t u' /\
    u' = if nonempty (map (str_lower rt) (row_keywords row))
         then keywords_staged rt row T u t else u.
Proof.
  destruct (nonempty (map (str_lower rt) (row_keywords row))) eqn:E.
  - exists (keywords_staged rt row T u t). split; [|reflexivity].
    unfold returns. rewrite (process_keywords_run row T u t E).
    split; [reflexivity|]. unfold events at 1; simpl.
    constructor; [exact I|]. apply Forall_app; split.
    + apply keyword_notification_returns.
    + destruct (all_found_and_stop rt row T); repeat constructor.
  - exists u. split; [|reflexivity].
    unfold process_keywords. rewrite E. apply returns_ret.
Qed.

(** ** One row *)

Lemma process_row_completed row t :
  row_completed row = true ->
  process_row rt row t = (Ok tt, t, [Print (LogSkipCompleted (row_url row))]).
Proof. intros H. unfold process_row. now rewrite H. Qed.

Lemma process_row_no_work row t :
  row_completed row = false ->
  has_work rt row = false ->
  process_row rt row t = (Ok tt, t, [Print (LogSkipNoWork (row_url row))]).
Proof.
  unfold has_work. intros Hc Hw. unfold process_row. rewrite Hc.
  apply orb_false_elim in Hw as [-> ->]. reflexivity.
Qed.

(** A row that is not skipped: the fetch and the keyword block return and
    write nothing to the store. *)
Lemma process_row_start row t :
  row_completed row = false ->
  has_work rt row = true ->
  exists T t1 e1 u1 t2 e2,
    get_text_from_url rt (row_url row) t = (Ok T, t1, e1) /\
    process_keywords rt row (map (str_lower rt) (row_keywords row)) T
      (initial_update row T) t1 = (Ok u1, t2, e2) /\
    Forall not_update (e1 ++ e2) /\
    process_row rt row t =
      let '(r, t', ev) :=
        (update <- process_updates rt row T u1 ;;
         if update_nonempty update then
           supabase_update rt (row_id row) update ;;
           print (LogUpdated (row_url row))
         else ret tt)%py t2 in
      (r, t', e1 ++ e2 ++ ev).
Proof.
  intros Hc Hw.
  destruct (get_text_returns (row_url row) t) as (T & HT & QT).
  destruct (get_text_from_url rt (row_url row) t) as [[r1 t1] e1] eqn:E1.
  unfold outcome, events in HT, QT; simpl in HT, QT; subst r1.
  destruct (process_keywords_returns row T (initial_update row T) t1)
    as (u1 & [H1 Q1] & _).
  destruct (process_keywords rt row _ T (initial_update row T) t1)
    as [[r2 t2] e2] eqn:E2.
  unfold outcome, events in H1, Q1; simpl in H1, Q1; subst r2.
  exists T, t1, e1, u1, t2, e2.
  repeat split; try assumption.
  - apply Forall_app; split; assumption.
  - unfold process_row. rewrite Hc. fold (has_work rt row) in *.
    unfold has_work in Hw.
    replace (negb (nonempty (map (str_lower rt) (row_keywords row)))
             && negb (row_checkUpdates row)) with false
      by (rewrite <- negb_orb, Hw; reflexivity).
    unfold bind at 1. rewrite E1.
    fold (initial_update row T).
    unfold bind at 1. rewrite E2.
    destruct (bind _ _ t2) as [[r t'] ev]. reflexivity.
Qed.

(** A row that is not skipped and whose update block returns: the three
    stages return, write nothing to the store, and the row ends with at most
    one write. *)
Lemma process_row_run row t :
  row_completed row = false ->
  has_work rt row = true ->
  exists T t1 e1 u1 t2 e2,
    get_text_from_url rt (row_url row) t = (Ok T, t1, e1) /\
    process_keywords rt row (map (str_lower rt) (row_keywords row)) T
      (initial_update row T) t1 = (Ok u1, t2, e2) /\
    Forall not_update (e1 ++ e2) /\
    if updates_return rt row T then
      exists u2 t3 e3,
        process_updates rt row T u1 t2 = (Ok u2, t3, e3) /\
        Forall not_update (e1 ++ e2 ++ e3) /\
        process_row rt row t =
          if update_nonempty u2 then
            if execute_update rt t3 (row_id row) u2
            then (Ok tt, S t3,
                  (e1 ++ e2 ++ e3)
                    ++ [Update (row_id row) u2 true;
                        Print (LogUpdated (row_url row))])
            else (Raise SupabaseError, S t3,
                  (e1 ++ e2 ++ e3) ++ [Update (row_id row) u2 false])
          else (Ok tt, t3, e1 ++ e2 ++ e3)
    else
      exists t3,
        process_updates rt row T u1 t2
        = (Raise RecursionError, t3, [Print LogChangeDetected]) /\
        process_row rt row t
        = (Raise RecursionError, t3,
           e1 ++ e2 ++ [Print LogChangeDetected]).
Proof.
  intros Hc Hw.
  destruct (process_row_start row t Hc Hw)
    as (T & t1 & e1 & u1 & t2 & e2 & E1 & E2 & Q & R).
  exists T, t1, e1, u1, t2, e2.
  repeat split; try assumption.
  destruct (updates_return rt row T) eqn:Hr.
  - destruct (process_updates_returns row T u1 t2 Hr) as (u2 & [H2 Q2] & _).
    destruct (process_updates rt row T u1 t2) as [[r3 t3] e3] eqn:E3.
    unfold outcome, events in H2, Q2; simpl in H2, Q2; subst r3.
    exists u2, t3, e3. repeat split.
    + rewrite app_assoc. apply Forall_app; split; assumption.
    + rewrite R. unfold bind at 1. rewrite E3.
      destruct (update_nonempty u2).
      * unfold bind, supabase_update, print, emit.
        destruct (execute_update rt t3 (row_id row) u2); simpl;
          rewrite <- ?app_assoc; reflexivity.
      * unfold ret. rewrite !app_nil_r. reflexivity.
  - destruct (process_updates_raise row T u1 t2 Hr) as (t3 & _ & E3).
    exists t3. split; [exact E3|].
    rewrite R. rewrite (bind_raise _ _ _ _ _ _ E3). reflexivity.
Qed.

End Blocks.

(** * The properties of the specification *)

(** ** Diffing *)

Lemma compare_sentences_same rt (sentences : list pystr) (t : nat) :
  compare_sentences rt (combine sentences sentences) t = (Ok [], t, []).
Proof.
  induction sentences as [|sentence sentences IH]; simpl; [reflexivity|].
  rewrite eqb_refl. exact IH.
Qed.

(** C5.  For every text [T], diffing [T] against itself gives the empty
    sequence of changes: [get_diff] returns the empty list, without reading
    the clock and whatever the word differ is. *)
Theorem get_diff_same_text rt (T : pystr) (t : nat) :
  get_diff rt T T t = (Ok [], t, []).
Proof. unfold get_diff. apply compare_sentences_same. Qed.

Lemma startswith_split (s prefix : pystr) :
  startswith s prefix = true -> s = prefix ++ skipn (length prefix) s.
Proof.
  revert s; induction prefix as [|p prefix IH]; intros [|c s]; simpl;
    try discriminate; try reflexivity.
  intros H. apply andb_prop in H as [Hc Hs].
  apply N.eqb_eq in Hc; subst c. f_equal. now apply IH.
Qed.

Lemma In_enumerate {A} (l : list A) :
  forall start i x,
    In (i, x) (enumerate start l) ->
    start <= i /\ nth_error l (i - start) = Some x.
Proof.
  unfold enumerate.
  induction l as [|y l IH]; intros start i x H; simpl in H; [destruct H|].
  destruct H as [H|H].
  - injection H as <- <-. rewrite Nat.sub_diag. split; [lia|reflexivity].
  - destruct (IH (S start) i x H) as [Hle Hn]. split; [lia|].
    replace (i - start) with (S (i - S start)) by lia. exact Hn.
Qed.

(** The positions kept in [change_indices] are positions in the output of
    the differ: position [i] with word [w] means that line [i] of the diff
    is ["+ " ++ w]. *)
Lemma inserted_lines_positions (word_diff : list pystr) (i : nat)
    (w : pystr) :
  In (i, w) (inserted_lines word_diff) ->
  nth_error word_diff i = Some (lit "+ " ++ w).
Proof.
  unfold inserted_lines. intros H.
  apply in_map_iff in H as ([j line] & E & H). cbn [fst snd] in E.
  injection E as -> <-.
  apply filter_In in H as [H P]. cbn [snd] in P.
  apply In_enumerate in H as [_ H]. rewrite Nat.sub_0_r in H.
  rewrite H. f_equal. exact (startswith_split line (lit "+ ") P).
Qed.

(** C1.  [get_diff] on the price example of the specification and on a
    one-word replacement.  The positions collected in [change_indices] are
    positions in the output of the differ, which also holds the lines of the
    deleted words, yet they are used as positions in [new_words]: in the
    first run the window starts at "is" and marks "dollars" only, in the
    second the kept word "c." is marked and the inserted "x" is not. *)
Theorem get_diff_marks_by_diff_position :
  get_diff Examples.offline
    (lit "the price is 10 dollars.") (lit "the price is 15 dollars now.") 0
  = (Ok [{| change := lit "15 dollars now.";
            action := lit "added";
            context := Some (lit "is 15 <b>dollars</b> now.");
            time := Examples.stamp 0 |}], 1, [])
  /\
  get_diff Examples.offline (lit "a b c.") (lit "a x c.") 0
  = (Ok [{| change := lit "x";
            action := lit "added";
            context := Some (lit "a x <b>c.</b>");
            time := Examples.stamp 0 |}], 1, []).
Proof. split; vm_compute; reflexivity. Qed.

(** ** Messages *)

Lemma truncation_notice_length : length truncation_notice = 39.
Proof. reflexivity. Qed.

(** The length check of [format_updates_message]: the result has at most
    4096 characters, and a longer body is cut to its first 4000 characters
    followed by the notice. *)
Lemma format_updates_message_bounded rt url updates new_detected_changes :
  length (format_updates_message rt url updates new_detected_changes) <= 4096
  /\ (4096 < length (updates_message_body rt url updates new_detected_changes)
      -> format_updates_message rt url updates new_detected_changes
         = firstn 4000
             (updates_message_body rt url updates new_detected_changes)
           ++ truncation_notice).
Proof.
  unfold format_updates_message.
  destruct (4096 <? length _) eqn:E.
  - apply Nat.ltb_lt in E. split; [|reflexivity].
    rewrite length_app, length_firstn, truncation_notice_length. lia.
  - apply Nat.ltb_ge in E. split; [exact E|lia].
Qed.

(** C3.  The keyword message and the short update notice are sent as built:
    for a row whose address has 4121 characters, whose keyword is on the page
    and whose baseline differs from the page, the two messages posted have
    4216 and 4303 characters. *)
Theorem keyword_message_not_truncated :
  map (@length char)
      (posted (events (process_row Examples.healthy Examples.row_long_url 0)))
  = [4216; 4303].
Proof. vm_compute. reflexivity. Qed.

(** ** The cycle *)

Section Cycle.
Context (rt : Runtime).

Lemma writes_app evs1 evs2 :
  writes (evs1 ++ evs2) = writes evs1 ++ writes evs2.
Proof. apply flat_map_app. Qed.

Lemma writes_quiet evs : Forall not_update evs -> writes evs = [].
Proof.
  induction 1 as [|e evs He _ IH]; simpl; [reflexivity|].
  rewrite IH. destruct e; simpl in *; try reflexivity. contradiction.
Qed.

(** The store writes of a row that is not skipped: at most one, of the
    proposal [u] left by the update block, and none when the differ raises
    in that block. *)
Lemma process_row_writes row t :
  row_completed row = false ->
  has_work rt row = true ->
  exists T t1,
    outcome (get_text_from_url rt (row_url row) t) = Ok T /\
    t1 = steps (get_text_from_url rt (row_url row) t) /\
    if updates_return rt row T then
      exists u t3,
        upd_reference u = upd_reference (after_keywords rt row T t1) /\
        upd_keywords u = upd_keywords (after_keywords rt row T t1) /\
        upd_foundKeyword u = upd_foundKeyword (after_keywords rt row T t1) /\
        upd_completed u = upd_completed (after_keywords rt row T t1) /\
        (if diff_needed row T
         then upd_isUpdated u = Some true
              /\ exists text_diffs,
                   upd_Updates u = Some (row_Updates row ++ text_diffs)
         else u = after_keywords rt row T t1) /\
        writes (events (process_row rt row t)) =
          if update_nonempty u
          then [(row_id row, u, execute_update rt t3 (row_id row) u)]
          else []
    else
      outcome (process_row rt row t) = Raise RecursionError /\
      writes (events (process_row rt row t)) = [].
Proof.
  intros Hc Hw.
  destruct (process_row_run rt row t Hc Hw)
    as (T & t1 & e1 & u1 & t2 & e2 & E1 & E2 & Q12 & R).
  destruct (process_keywords_returns rt row T (initial_update row T) t1)
    as (u1' & [H1 _] & D1).
  rewrite E2 in H1. unfold outcome in H1; simpl in H1.
  injection H1 as <-.
  fold (after_keywords rt row T t1) in D1. subst u1.
  exists T, t1. rewrite E1.
  split; [reflexivity|]. split; [reflexivity|].
  destruct (updates_return rt row T) eqn:Hr.
  - destruct R as (u2 & t3 & e3 & E3 & Q & ->).
    destruct (process_updates_returns rt row T (after_keywords rt row T t1)
                t2 Hr)
      as (u2' & [H2 _] & R1 & R2 & R3 & R4 & R5).
    rewrite E3 in H2. unfold outcome in H2; simpl in H2.
    injection H2 as <-.
    exists u2, t3.
    repeat split; try assumption.
    pose proof (writes_quiet _ Q) as W.
    destruct (update_nonempty u2);
      [destruct (execute_update rt t3 (row_id row) u2)|];
      unfold events; cbn [snd];
      [rewrite writes_app, W|rewrite writes_app, W|rewrite W];
      reflexivity.
  - destruct R as (t3 & _ & ->). split; [reflexivity|].
    unfold events; cbn [snd]. apply writes_quiet.
    rewrite app_assoc. apply Forall_app; split; [exact Q12|].
    repeat constructor.
Qed.

(** A row raises through a failed store write, which is then the last event
    of the row, or through the differ, and then it has written nothing. *)
Lemma process_row_raise row t e t' ev :
  process_row rt row t = (Raise e, t', ev) ->
  (e = SupabaseError
   /\ exists data before,
        ev = before ++ [Update (row_id row) data false]
        /\ Forall not_update before)
  \/ (e = RecursionError /\ Forall not_update ev).
Proof.
  intros H.
  destruct (row_completed row) eqn:Hc.
  { rewrite (process_row_completed rt row t Hc) in H. discriminate. }
  destruct (has_work rt row) eqn:Hw.
  2:{ rewrite (process_row_no_work rt row t Hc Hw) in H. discriminate. }
  destruct (process_row_run rt row t Hc Hw)
    as (T & t1 & e1 & u1 & t2 & e2 & _ & _ & Q12 & R).
  destruct (updates_return rt row T).
  - destruct R as (u2 & t3 & e3 & _ & Q & R). rewrite R in H.
    destruct (update_nonempty u2); [|discriminate].
    destruct (execute_update rt t3 (row_id row) u2); [discriminate|].
    inversion H; subst. left. eauto.
  - destruct R as (t3 & _ & R). rewrite R in H.
    inversion H; subst. right. split; [reflexivity|].
    rewrite app_assoc. apply Forall_app; split; [exact Q12|].
    repeat constructor.
Qed.

(** Once a row raises, the loop of [main] is left: the rows behind it add
    nothing. *)
Lemma process_rows_raise n row rows2 e t2 ev2 :
  forall rows1 i t t1 ev1,
    process_rows rt i n rows1 t = (Ok tt, t1, ev1) ->
    process_row rt row t1 = (Raise e, t2, ev2) ->
    process_rows rt i n (rows1 ++ row :: rows2) t =
      (Raise e, t2,
       ev1 ++ Print (LogProcessingRow (i + length rows1) n (row_url row))
           :: ev2).
Proof.
  induction rows1 as [|r rows1 IH]; intros i t t1 ev1 H1 H2; simpl in *.
  - unfold ret in H1. injection H1 as <- <-. rewrite Nat.add_0_r.
    unfold bind at 1, print, emit. unfold bind at 1. rewrite H2.
    reflexivity.
  - unfold bind at 1, print, emit in H1.
    unfold bind at 1, print, emit.
    unfold bind at 1 in H1. unfold bind at 1.
    destruct (process_row rt r t) as [[[[]|e'] ta] ea]; [|discriminate].
    unfold bind at 1 in H1. unfold bind at 1. simpl in *.
    destruct (process_rows rt (S i) n rows1 ta) as [[rb tb] eb] eqn:Eb.
    injection H1 as -> -> <-.
    rewrite (IH (S i) ta t1 eb Eb H2).
    replace (S i + length rows1) with (i + S (length rows1)) by lia.
    simpl. rewrite <- !app_assoc. reflexivity.
Qed.

Lemma failed_writes_quiet evs :
  Forall not_update evs -> failed_writes evs = [].
Proof.
  induction 1 as [|e evs He _ IH]; simpl; [reflexivity|].
  rewrite IH. destruct e; simpl in *; try reflexivity. contradiction.
Qed.

Lemma failed_writes_app evs1 evs2 :
  failed_writes (evs1 ++ evs2) = failed_writes evs1 ++ failed_writes evs2.
Proof. apply flat_map_app. Qed.

(** A failed store write makes the row raise. *)
Lemma process_row_failed_write row t id :
  In id (failed_writes (events (process_row rt row t))) ->
  process_row rt row t
  = (Raise SupabaseError, steps (process_row rt row t),
     events (process_row rt row t)).
Proof.
  destruct (row_completed row) eqn:Hc.
  { rewrite (process_row_completed rt row t Hc). simpl. tauto. }
  destruct (has_work rt row) eqn:Hw.
  { destruct (process_row_run rt row t Hc Hw)
      as (T & t1 & e1 & u1 & t2 & e2 & _ & _ & Q12 & R).
    destruct (updates_return rt row T).
    - destruct R as (u2 & t3 & e3 & _ & Q & ->).
      pose proof (failed_writes_quiet _ Q) as F.
      destruct (update_nonempty u2);
        [destruct (execute_update rt t3 (row_id row) u2)|];
        unfold events, steps; cbn [fst snd]; intros H;
        try reflexivity; exfalso.
      + rewrite failed_writes_app, F in H. simpl in H. tauto.
      + rewrite F in H. simpl in H. tauto.
    - destruct R as (t3 & _ & ->).
      unfold events; cbn [snd]. intros H. exfalso.
      rewrite app_assoc, failed_writes_app in H.
      rewrite (failed_writes_quiet _ Q12) in H. simpl in H. tauto. }
  rewrite (process_row_no_work rt row t Hc Hw). simpl. tauto.
Qed.

End Cycle.

(** ** The recursion of the differ *)

Lemma skipn_nth_error {A} (l : list A) :
  forall i x, nth_error l i = Some x -> skipn i l = x :: skipn (S i) l.
Proof.
  induction l as [|y l IH]; intros [|i] x H; simpl in *; try discriminate.
  - now injection H as ->.
  - apply IH, H.
Qed.

Section Deep.
Variable x : pystr.

(** A run of the word [x] in a sentence, with its positions. *)
Lemma indexed_run (a : list pystr) :
  forall n lo,
    (forall i, lo <= i < lo + n -> nth_error a i = Some x) ->
    Difflib.indexed a lo (lo + n) = map (fun i => (i, x)) (seq lo n).
Proof.
  unfold Difflib.indexed, slice.
  induction n as [|n IH]; intros lo H.
  - replace (lo + 0 - lo) with 0 by lia. reflexivity.
  - replace (lo + S n - lo) with (S n) by lia.
    rewrite (skipn_nth_error a lo x) by (apply H; lia).
    cbn [firstn seq combine map]. f_equal.
    specialize (IH (S lo)).
    replace (S lo + n - S lo) with n in IH by lia.
    apply IH. intros i Hi. apply H. lia.
Qed.

Lemma search_row (j : nat) (r : nat * nat) (best : option (nat * nat)) :
  forall (rows : list nat) (eq : option (nat * nat)),
    fold_left (fun st' ia => Difflib.search_step (j, x) ia st')
              (map (fun i => (i, x)) rows) (r, best, eq)
    = (r, best,
       match eq, rows with
       | None, i :: _ => Some (i, j)
       | _, _ => eq
       end).
Proof.
  induction rows as [|i rows IH]; intros eq; cbn [map fold_left].
  - now destruct eq.
  - unfold Difflib.search_step at 2. rewrite eqb_refl, IH.
    destruct eq; [reflexivity|]. now destruct rows.
Qed.

(** Between two runs of the same word the search finds no close pair, and
    its first pair of equal words is the first pair. *)
Lemma search_run (a b : list pystr) (alo na blo nb : nat) :
  (forall i, alo <= i < alo + S na -> nth_error a i = Some x) ->
  (forall j, blo <= j < blo + S nb -> nth_error b j = Some x) ->
  Difflib.search a alo (alo + S na) b blo (blo + S nb)
  = ((74, 100), None, Some (alo, blo)).
Proof.
  intros Ha Hb. unfold Difflib.search. cbv zeta.
  rewrite (indexed_run a (S na) alo Ha), (indexed_run b (S nb) blo Hb).
  assert (G : forall cols eq best,
             fold_left
               (fun st jb =>
                  fold_left (fun st' ia => Difflib.search_step jb ia st')
                            (map (fun i => (i, x)) (seq alo (S na))) st)
               (map (fun j => (j, x)) cols) ((74, 100), best, eq)
             = ((74, 100), best,
                match eq, cols with
                | None, j :: _ => Some (alo, j)
                | _, _ => eq
                end)).
  { induction cols as [|j cols IH]; intros eq best; cbn [map fold_left].
    - now destruct eq.
    - rewrite search_row, IH. destruct eq; [reflexivity|].
      cbn [seq]. now destruct cols. }
  rewrite G. reflexivity.
Qed.

(** Two runs of the same word that are longer than the room left make
    [_fancy_replace] raise: every level synchronises on the first pair of
    words and hands the rest to the next level. *)
Lemma fancy_replace_deep (a b : list pystr) :
  forall room alo na blo nb,
    (forall i, alo <= i < alo + na -> nth_error a i = Some x) ->
    (forall j, blo <= j < blo + nb -> nth_error b j = Some x) ->
    room < na -> room < nb ->
    Difflib.fancy_replace room a alo (alo + na) b blo (blo + nb) = None.
Proof.
  induction room as [|room IH]; intros alo na blo nb Ha Hb La Lb;
    [reflexivity|].
  destruct na as [|na]; [lia|]. destruct nb as [|nb]; [lia|].
  cbn [Difflib.fancy_replace].
  rewrite (search_run a b alo na blo nb Ha Hb).
  change (Difflib.frac_lt (74, 100) (75, 100)) with true.
  cbv beta iota.
  rewrite (Ha alo) by lia. rewrite (Hb blo) by lia.
  rewrite !Nat.ltb_irrefl.
  replace (alo + 1 <? alo + S na) with true
    by (symmetry; apply Nat.ltb_lt; lia).
  replace (blo + 1 <? blo + S nb) with true
    by (symmetry; apply Nat.ltb_lt; lia).
  replace (alo + S na) with (alo + 1 + na) by lia.
  replace (blo + S nb) with (blo + 1 + nb) by lia.
  rewrite IH; [reflexivity| | |lia|lia].
  - intros i Hi. apply Ha. lia.
  - intros j Hj. apply Hb. lia.
Qed.

End Deep.

(** The sentences of [Scenarios.row_deep]: the differ leaves the word "p"
    aside and then needs 600 levels, more than the script has room for. *)
Lemma deep_words_raise :
  Difflib.ndiff Difflib.script_room
    Scenarios.deep_old_words Scenarios.deep_new_words = None.
Proof.
  assert (O : Difflib.get_opcodes PyStr.eqb Difflib.no_junk
                Scenarios.deep_old_words Scenarios.deep_new_words
              = [(Difflib.Replace, 0, 601, 0, 600)])
    by (vm_compute; reflexivity).
  assert (S1 : Difflib.search Scenarios.deep_old_words 0 601
                 Scenarios.deep_new_words 0 600
               = ((74, 100), None, Some (1, 0)))
    by (vm_compute; reflexivity).
  assert (F : forall room,
             room < 599 ->
             Difflib.fancy_replace (S room) Scenarios.deep_old_words 0 601
               Scenarios.deep_new_words 0 600 = None).
  { intros room L. cbn [Difflib.fancy_replace]. rewrite S1.
    change (Difflib.frac_lt (74, 100) (75, 100)) with true.
    cbv beta iota.
    change (nth_error Scenarios.deep_old_words 1) with (Some (lit "x")).
    change (nth_error Scenarios.deep_new_words 0) with (Some (lit "x")).
    change (0 <? 1) with true. change (0 <? 0) with false.
    change (1 + 1 <? 601) with true. change (0 + 1 <? 600) with true.
    change (Difflib.fancy_replace room Scenarios.deep_old_words (1 + 1) 601
              Scenarios.deep_new_words (0 + 1) 600)
      with (Difflib.fancy_replace room Scenarios.deep_old_words 2 (2 + 599)
              Scenarios.deep_new_words 1 (1 + 599)).
    rewrite (fancy_replace_deep (lit "x") Scenarios.deep_old_words
               Scenarios.deep_new_words room 2 599 1 599);
      [reflexivity| | |exact L|exact L].
    - intros i Hi. unfold Scenarios.deep_old_words.
      destruct i as [|i]; [lia|]. cbn [nth_error].
      apply nth_error_repeat. lia.
    - intros j Hj. apply nth_error_repeat. lia. }
  unfold Difflib.ndiff. rewrite O.
  cbn [Difflib.compare_opcodes Difflib.compare_opcode].
  unfold Difflib.script_room. rewrite (F 494) by lia. reflexivity.
Qed.

(** The update block of [Scenarios.row_deep] does not return. *)
Lemma deep_updates_raise :
  updates_return Scenarios.deep_page Scenarios.row_deep Scenarios.deep_new
  = false.
Proof.
  assert (D : diff_needed Scenarios.row_deep Scenarios.deep_new = true)
    by (vm_compute; reflexivity).
  assert (P : combine (split_sentences Scenarios.deep_old)
                      (split_sentences Scenarios.deep_new)
              = [(Scenarios.deep_old, Scenarios.deep_new)])
    by (vm_compute; reflexivity).
  assert (E : PyStr.eqb Scenarios.deep_old Scenarios.deep_new = false)
    by (vm_compute; reflexivity).
  assert (Wo : split Scenarios.deep_old = Scenarios.deep_old_words)
    by (vm_compute; reflexivity).
  assert (Wn : split Scenarios.deep_new = Scenarios.deep_new_words)
    by (vm_compute; reflexivity).
  unfold updates_return. rewrite D.
  change (row_reference Scenarios.row_deep) with Scenarios.deep_old.
  unfold diff_returns. rewrite P.
  cbn [differ_returns forallb fst snd]. rewrite E, Wo, Wn.
  change (ndiff Scenarios.deep_page)
    with (Difflib.ndiff Difflib.script_room).
  rewrite deep_words_raise. reflexivity.
Qed.

(** [Scenarios.row_deep] raises [RecursionError] and writes nothing. *)
Lemma row_deep_raises (t : nat) :
  outcome (process_row Scenarios.deep_page Scenarios.row_deep t)
  = Raise RecursionError
  /\ writes (events (process_row Scenarios.deep_page Scenarios.row_deep t))
     = [].
Proof.
  destruct (process_row_writes Scenarios.deep_page Scenarios.row_deep t
              eq_refl eq_refl) as (T & t1 & HT & _ & W).
  assert (E : outcome (get_text_from_url Scenarios.deep_page
                         (row_url Scenarios.row_deep) t)
              = Ok Scenarios.deep_new) by (vm_compute; reflexivity).
  rewrite E in HT. injection HT as <-.
  rewrite deep_updates_raise in W. exact W.
Qed.

(** C2, as the script has it.  If the store write of a row fails, the
    exception leaves [process_row] and the loop over the rows, the handler
    of [main] prints its message and [main] returns: the trace ends there,
    and the rows behind the failing one are not processed in this cycle. *)
Theorem store_failure_ends_cycle rt (t : nat) (rows1 : list Row) (row : Row)
    (rows2 : list Row) (t1 : nat) (ev1 : list event)
    (Hselect : execute_select rt t = Some (rows1 ++ row :: rows2))
    (Hbefore : process_rows rt 1 (length (rows1 ++ row :: rows2)) rows1 (S t)
               = (Ok tt, t1, ev1))
    (Hfails : In (row_id row)
                 (failed_writes (events (process_row rt row t1)))) :
  main rt t =
    (Ok tt, steps (process_row rt row t1),
     [Print LogFetchingRows; Select;
      Print (LogFoundRows (length (rows1 ++ row :: rows2)))]
     ++ ev1
     ++ Print (LogProcessingRow (S (length rows1))
                 (length (rows1 ++ row :: rows2)) (row_url row))
     :: events (process_row rt row t1)
     ++ [Print LogErrorFetchingData]).
Proof.
  pose proof (process_row_failed_write rt row t1 _ Hfails) as Hraise.
  pose proof (process_rows_raise rt _ row rows2 _ _ _ rows1 1 (S t) t1 ev1
                Hbefore Hraise) as Hloop.
  unfold main. unfold bind at 1, print, emit.
  unfold try_except. unfold bind at 1, supabase_select. rewrite Hselect.
  replace (nonempty (rows1 ++ row :: rows2)) with true
    by (destruct rows1; reflexivity).
  unfold bind at 1. rewrite Hloop. simpl.
  rewrite <- !app_assoc. reflexivity.
Qed.

(** The store write of the first of two rows fails. *)
Lemma store_failure_ends_cycle_example :
  In 1%N (failed_writes (events (process_row Examples.failing_store
                                   Examples.row_sale 1)))
  /\ main Examples.failing_store 0 =
       (Ok tt, steps (process_row Examples.failing_store Examples.row_sale 1),
        [Print LogFetchingRows; Select; Print (LogFoundRows 2)]
        ++ []
        ++ Print (LogProcessingRow 1 2 (row_url Examples.row_sale))
        :: events (process_row Examples.failing_store Examples.row_sale 1)
        ++ [Print LogErrorFetchingData]).
Proof.
  split; [vm_compute; tauto|].
  apply (store_failure_ends_cycle Examples.failing_store 0 []
           Examples.row_sale [Examples.row_launch] 1 []);
    [reflexivity|reflexivity|vm_compute; tauto].
Defined.

(** C2, as the specification has it, fails: the write for the first row
    fails, and the second row, which a cycle with a healthy store fetches
    and writes, is neither fetched nor written. *)
Lemma store_failure_blocks_next_row :
  failed_writes (events (main Examples.failing_store 0)) = [1%N]
  /\ browsed (events (main Examples.failing_store 0))
     = [lit "https://a.example"]
  /\ map (fun w => fst (fst w)) (writes (events (main Examples.failing_store 0)))
     = [1%N]
  /\ browsed (events (main Examples.healthy 0))
     = [lit "https://a.example"; lit "https://b.example"]
  /\ map (fun w => fst (fst w)) (writes (events (main Examples.healthy 0)))
     = [1%N; 2%N].
Proof. vm_compute. repeat split; reflexivity. Qed.

(** ** Completion *)

Lemma nonempty_map {A B} (f : A -> B) (l : list A) :
  nonempty (map f l) = nonempty l.
Proof. now destruct l. Qed.

Lemma nonempty_false {A} (l : list A) : nonempty l = false -> l = [].
Proof. destruct l; [reflexivity|discriminate]. Qed.

Lemma initial_update_fields row T :
  upd_keywords (initial_update row T) = None
  /\ upd_foundKeyword (initial_update row T) = None
  /\ upd_completed (initial_update row T) = None
  /\ upd_isUpdated (initial_update row T) = None
  /\ upd_Updates (initial_update row T) = None.
Proof. unfold initial_update. destruct (negb _); repeat split. Qed.

(** The [completed] key after the keyword block. *)
Lemma after_keywords_completed rt row T t1 :
  upd_completed (after_keywords rt row T t1) = None
  \/ (upd_completed (after_keywords rt row T t1) = Some true
      /\ upd_keywords (after_keywords rt row T t1) = Some []
      /\ row_keywords row <> []
      /\ row_shouldContinueCheck row = false).
Proof.
  destruct (initial_update_fields row T) as (_ & _ & Hc & _).
  unfold after_keywords.
  destruct (nonempty (map (str_lower rt) (row_keywords row))) eqn:E;
    [|left; exact Hc].
  unfold keywords_staged; simpl.
  destruct (all_found_and_stop rt row T) eqn:S; [right|left; exact Hc].
  unfold all_found_and_stop in S. apply andb_prop in S as [S1 S2].
  apply negb_true_iff in S1, S2. apply nonempty_false in S1.
  repeat split; try assumption.
  - now rewrite S1.
  - intros K. rewrite K in E. discriminate.
Qed.

(** C4.  A completed row is skipped: the cycle prints the skip line and does
    nothing else (no fetch, no clock reading, no write).  For any row, a
    store write never stages [completed = False], and it stages
    [completed = True] only together with an empty pending list, for a row
    that had keywords and has [shouldContinueCheck] false. *)
Theorem completed_is_terminal rt (row : Row) (t : nat) :
  (row_completed row = true ->
   process_row rt row t
   = (Ok tt, t, [Print (LogSkipCompleted (row_url row))]))
  /\ (forall id data ok,
        In (id, data, ok) (writes (events (process_row rt row t))) ->
        upd_completed data <> Some false
        /\ (upd_completed data = Some true ->
            upd_keywords data = Some []
            /\ row_keywords row <> []
            /\ row_shouldContinueCheck row = false)).
Proof.
  split; [apply process_row_completed|].
  intros id data ok H.
  destruct (row_completed row) eqn:Hc.
  { rewrite (process_row_completed rt row t Hc) in H. destruct H. }
  destruct (has_work rt row) eqn:Hw.
  2:{ rewrite (process_row_no_work rt row t Hc Hw) in H. destruct H. }
  destruct (process_row_writes rt row t Hc Hw) as (T & t1 & _ & _ & W).
  destruct (updates_return rt row T).
  2:{ destruct W as [_ W]. rewrite W in H. destruct H. }
  destruct W as (u & t3 & _ & Rk & _ & Rc & _ & W).
  rewrite W in H. destruct (update_nonempty u); [|destruct H].
  destruct H as [H|[]]. injection H as _ <- _.
  rewrite Rc, Rk.
  destruct (after_keywords_completed rt row T t1) as [N|(C & K & R)].
  - rewrite N. split; [discriminate|discriminate].
  - rewrite C. split; [discriminate|]. intros _. exact (conj K R).
Qed.

(** A completed row at step 5, and the row that completes at step 0. *)
Lemma completed_is_terminal_example :
  process_row Examples.healthy Examples.row_done 5
  = (Ok tt, 5, [Print (LogSkipCompleted (row_url Examples.row_done))])
  /\ In (1%N, Examples.sale_update, true)
        (writes (events (process_row Examples.healthy Examples.row_sale 0)))
  /\ upd_keywords Examples.sale_update = Some []
  /\ row_shouldContinueCheck Examples.row_sale = false.
Proof.
  split.
  - apply (proj1 (completed_is_terminal Examples.healthy Examples.row_done 5)).
    reflexivity.
  - assert (H : In (1%N, Examples.sale_update, true)
                  (writes (events (process_row Examples.healthy
                                     Examples.row_sale 0))))
      by (vm_compute; tauto).
    split; [exact H|].
    destruct (proj2 (completed_is_terminal Examples.healthy
                       Examples.row_sale 0) _ _ _ H) as [_ K].
    destruct (K eq_refl) as (K1 & _ & K3). exact (conj K1 K3).
Defined.




(** ** Baselines *)

(** When the update block does not compare, the write of the row stages
    neither [isUpdated] nor [Updates]. *)
Lemma no_diff_no_updates rt (row : Row) (t : nat) :
  (forall T, diff_needed row T = false) ->
  forall id data ok,
    In (id, data, ok) (writes (events (process_row rt row t))) ->
    upd_isUpdated data = None /\ upd_Updates data = None.
Proof.
  intros Hd id data ok H.
  destruct (row_completed row) eqn:Hc.
  { rewrite (process_row_completed rt row t Hc) in H. destruct H. }
  destruct (has_work rt row) eqn:Hw.
  2:{ rewrite (process_row_no_work rt row t Hc Hw) in H. destruct H. }
  destruct (process_row_writes rt row t Hc Hw) as (T & t1 & _ & _ & W).
  destruct (updates_return rt row T).
  2:{ destruct W as [_ W]. rewrite W in H. destruct H. }
  destruct W as (u & t3 & _ & _ & _ & _ & D & W).
  rewrite W in H. destruct (update_nonempty u); [|destruct H].
  destruct H as [H|[]]. injection H as _ <- _.
  rewrite (Hd T) in D. subst u.
  destruct (initial_update_fields row T) as (_ & _ & _ & Hi & Hu).
  unfold after_keywords.
  destruct (nonempty (map (str_lower rt) (row_keywords row)));
    simpl; split; assumption.
Qed.

Lemma blank_no_diff (row : Row) (T : pystr) :
  forallb isspace (row_reference row) = true -> diff_needed row T = false.
Proof.
  intros H. unfold diff_needed. rewrite (strip_blank _ H). simpl.
  apply andb_false_r.
Qed.

(** The update block compares only against a reference that is not blank
    and differs from the new text. *)
Lemma change_detected_only_with_baseline rt (row : Row) (T : pystr)
    (u : update_data) (t : nat) :
  In (Print LogChangeDetected) (events (process_updates rt row T u t)) ->
  row_checkUpdates row = true
  /\ row_reference row <> []
  /\ forallb isspace (row_reference row) = false
  /\ T <> row_reference row.
Proof.
  destruct (diff_needed row T) eqn:E.
  - intros _. unfold diff_needed in E.
    apply andb_prop in E as [E1 E2]. apply andb_prop in E2 as [E2 E3].
    apply negb_true_iff in E3. apply eqb_neq in E3.
    repeat split; try assumption.
    + intros K. rewrite K in E2. discriminate.
    + destruct (forallb isspace (row_reference row)) eqn:B; [|reflexivity].
      rewrite (strip_blank _ B) in E2. discriminate.
  - rewrite (process_updates_idle rt row T u t E).
    destruct (row_checkUpdates row); simpl;
      [intros [H|[]]; discriminate|intros []].
Qed.

(** C7.  For a row whose stored reference is the empty string, the update
    block returns the proposal unchanged for every new text (with
    [checkUpdates] it only prints that there is nothing to compare), and the
    write of the cycle stages neither [isUpdated] nor [Updates]: no change
    record is produced and nothing is appended to the log.  The comparison
    is announced, and made, only for a reference that is not empty and
    differs from the new text. *)
Theorem no_baseline_no_changes rt (row : Row) (t : nat) :
  (row_reference row = [] ->
   (forall T u t',
      process_updates rt row T u t'
      = (Ok u, t', if row_checkUpdates row then [Print LogNoChange] else []))
   /\ (forall id data ok,
         In (id, data, ok) (writes (events (process_row rt row t))) ->
         upd_isUpdated data = None /\ upd_Updates data = None))
  /\ (forall T u t',
        In (Print LogChangeDetected)
           (events (process_updates rt row T u t')) ->
        row_reference row <> [] /\ T <> row_reference row).
Proof.
  split.
  - intros Href.
    assert (Hd : forall T, diff_needed row T = false)
      by (intros T; apply blank_no_diff; now rewrite Href).
    split.
    + intros T u t'. apply process_updates_idle, Hd.
    + apply no_diff_no_updates, Hd.
  - intros T u t' H.
    destruct (change_detected_only_with_baseline rt row T u t' H)
      as (_ & H1 & _ & H2).
    split; assumption.
Qed.

(** [row_sale] has no baseline and the page has text; [row_quiet] has a
    baseline, and a page that differs from it is compared. *)
Lemma no_baseline_no_changes_example :
  row_reference Examples.row_sale = []
  /\ process_updates Examples.healthy Examples.row_sale
       (lit "big sale today.") empty_update 3
     = (Ok empty_update, 3, [Print LogNoChange])
  /\ In (1%N, Examples.sale_update, true)
        (writes (events (process_row Examples.healthy Examples.row_sale 0)))
  /\ upd_Updates Examples.sale_update = None
  /\ In (Print LogChangeDetected)
        (events (process_updates Examples.healthy Examples.row_quiet
                   (lit "big sale tomorrow.") empty_update 3))
  /\ row_reference Examples.row_quiet <> []
  /\ lit "big sale tomorrow." <> row_reference Examples.row_quiet.
Proof.
  split; [reflexivity|].
  destruct (proj1 (no_baseline_no_changes Examples.healthy
                     Examples.row_sale 0) eq_refl) as [H1 H2].
  assert (W : In (1%N, Examples.sale_update, true)
                 (writes (events (process_row Examples.healthy
                                    Examples.row_sale 0))))
    by (vm_compute; tauto).
  assert (D : In (Print LogChangeDetected)
                 (events (process_updates Examples.healthy Examples.row_quiet
                            (lit "big sale tomorrow.") empty_update 3)))
    by (vm_compute; tauto).
  split; [apply (H1 (lit "big sale today.") empty_update 3)|].
  split; [exact W|].
  split; [apply (H2 1%N Examples.sale_update true W)|].
  split; [exact D|].
  apply (proj2 (no_baseline_no_changes Examples.healthy Examples.row_quiet 0)
               (lit "big sale tomorrow.") empty_update 3 D).
Defined.

(** C8.  A stored reference made of whitespace only is handled by the update
    block as the empty reference is: for every new text the block returns
    the proposal unchanged without comparing, and the write of the cycle
    stages neither [isUpdated] nor [Updates]. *)
Theorem blank_reference_is_no_baseline rt (row : Row) (t : nat)
    (Hblank : forallb isspace (row_reference row) = true) :
  (forall T u t',
     process_updates rt row T u t'
     = process_updates rt (with_reference row []) T u t'
     /\ process_updates rt row T u t'
        = (Ok u, t',
           if row_checkUpdates row then [Print LogNoChange] else []))
  /\ (forall id data ok,
        In (id, data, ok) (writes (events (process_row rt row t))) ->
        upd_isUpdated data = None /\ upd_Updates data = None).
Proof.
  split.
  - intros T u t'.
    rewrite (process_updates_idle rt row T u t' (blank_no_diff row T Hblank)).
    rewrite (process_updates_idle rt (with_reference row []) T u t'
               (blank_no_diff (with_reference row []) T eq_refl)).
    split; reflexivity.
  - apply no_diff_no_updates. intros T. apply blank_no_diff, Hblank.
Qed.

(** [row_blank] stores three blanks; the page has text. *)
Lemma blank_reference_is_no_baseline_example :
  forallb isspace (row_reference Examples.row_blank) = true
  /\ row_reference Examples.row_blank <> []
  /\ process_updates Examples.healthy Examples.row_blank
       (lit "big sale today.") empty_update 3
     = (Ok empty_update, 3, [Print LogNoChange])
  /\ In (3%N, Examples.blank_update, true)
        (writes (events (process_row Examples.healthy Examples.row_blank 0)))
  /\ upd_isUpdated Examples.blank_update = None
  /\ upd_Updates Examples.blank_update = None.
Proof.
  split; [reflexivity|]. split; [discriminate|].
  destruct (blank_reference_is_no_baseline Examples.healthy
              Examples.row_blank 0 eq_refl) as [H1 H2].
  assert (W : In (3%N, Examples.blank_update, true)
                 (writes (events (process_row Examples.healthy
                                    Examples.row_blank 0))))
    by (vm_compute; tauto).
  split; [apply (H1 (lit "big sale today.") empty_update 3)|].
  split; [exact W|].
  apply (H2 3%N Examples.blank_update true W).
Defined.

(** ** Keyword tracking *)

Lemma map_fixed {A} (f : A -> A) (l : list A) :
  Forall (fun x => f x = x) l -> map f l = l.
Proof.
  induction 1 as [|x l Hx _ IH]; simpl; [reflexivity|].
  now rewrite Hx, IH.
Qed.

Lemma filter_none {A} (p : A -> bool) (l : list A) :
  Forall (fun x => p x = false) l -> filter p l = [].
Proof.
  induction 1 as [|x l Hx _ IH]; simpl; [reflexivity|].
  now rewrite Hx.
Qed.

(** C6, amended.  The keyword block matches the lower-cased keywords.  For
    a keyword list [K] and a text [T] in which no lower-cased element of [K]
    occurs, the block stages the lower-cased [K] as the pending list and the
    found log without a new entry, reads no clock and sends nothing: its
    only event is the console line that shows the empty list of finds. *)
Theorem absent_keywords_stay_pending rt (row : Row) (T : pystr)
    (u : update_data) (t : nat)
    (Habsent : Forall (fun k => contains T (str_lower rt k) = false)
                      (row_keywords row)) :
  process_keywords rt row (map (str_lower rt) (row_keywords row)) T u t =
    if nonempty (row_keywords row)
    then (Ok {| upd_reference := upd_reference u;
                upd_keywords := Some (map (str_lower rt) (row_keywords row));
                upd_foundKeyword := Some (row_foundKeyword row);
                upd_completed := upd_completed u;
                upd_isUpdated := upd_isUpdated u;
                upd_Updates := upd_Updates u |},
          t, [Print (LogKeywordsFound [])])
    else (Ok u, t, []).
Proof.
  assert (Hnone : filter (contains T) (map (str_lower rt) (row_keywords row))
                  = []).
  { apply filter_none, Forall_map. exact Habsent. }
  destruct (nonempty (row_keywords row)) eqn:E.
  - rewrite process_keywords_run by (now rewrite nonempty_map).
    unfold keywords_staged, keyword_notification, all_found_and_stop,
      remaining_after, found_in.
    rewrite Hnone. simpl. rewrite nonempty_map, E, andb_false_r, app_nil_r.
    simpl. unfold steps, ret; simpl. now rewrite Nat.add_0_r.
  - apply nonempty_false in E. rewrite E. reflexivity.
Qed.

(** "Refund" is not on the page in either case. *)
Lemma absent_keywords_stay_pending_example :
  Forall (fun k => contains (lit "big sale today.") (ascii_lower k) = false)
         (row_keywords Scenarios.row_capital)
  /\ process_keywords Examples.healthy Scenarios.row_capital
       (map ascii_lower (row_keywords Scenarios.row_capital))
       (lit "big sale today.") empty_update 1
     = (Ok {| upd_reference := None;
              upd_keywords := Some [lit "refund"];
              upd_foundKeyword := Some [];
              upd_completed := None;
              upd_isUpdated := None;
              upd_Updates := None |},
        1, [Print (LogKeywordsFound [])]).
Proof.
  split; [repeat constructor|].
  apply (absent_keywords_stay_pending Examples.healthy Scenarios.row_capital
           (lit "big sale today.") empty_update 1); repeat constructor.
Defined.

(** C6, as the specification has it, fails.  Neither "Sale" nor "Refund"
    occurs in the text "big sale today.".  For the keyword list ["Sale"] the
    block finds "sale", empties the pending list, appends an entry to the
    found log and posts a keyword message; for ["Refund"] it finds nothing,
    and the pending list it stages is ["refund"], not the list of the row. *)
Lemma mixed_case_keywords_are_folded :
  Forall (fun k => contains (lit "big sale today.") k = false)
         (row_keywords Scenarios.row_mixed_case)
  /\ process_keywords Examples.healthy Scenarios.row_mixed_case
       (map ascii_lower (row_keywords Scenarios.row_mixed_case))
       (lit "big sale today.") empty_update 1
     = (Ok {| upd_reference := None;
              upd_keywords := Some [];
              upd_foundKeyword :=
                Some [{| keyword := lit "sale";
                         foundAt := Examples.stamp 1 |}];
              upd_completed := None;
              upd_isUpdated := None;
              upd_Updates := None |},
        3,
        [Print (LogKeywordsFound [{| keyword := lit "sale";
                                     foundAt := Examples.stamp 1 |}]);
         Post (lit "bot-token") (lit "42")
              (keyword_message [lit "sale"]
                 (row_url Scenarios.row_mixed_case)
                 (Some (Examples.stamp 1)))])
  /\ Forall (fun k => contains (lit "big sale today.") k = false)
            (row_keywords Scenarios.row_capital)
  /\ (exists u',
        outcome (process_keywords Examples.healthy Scenarios.row_capital
                   (map ascii_lower (row_keywords Scenarios.row_capital))
                   (lit "big sale today.") empty_update 1) = Ok u'
        /\ upd_keywords u' = Some [lit "refund"]
        /\ upd_keywords u' <> Some (row_keywords Scenarios.row_capital)).
Proof.
  split; [repeat constructor|].
  split; [vm_compute; reflexivity|].
  split; [repeat constructor|].
  eexists. split; [vm_compute; reflexivity|].
  split; [reflexivity|discriminate].
Qed.

Lemma nth_error_stamped rt (found : list pystr) :
  forall t i kw,
    nth_error found i = Some kw ->
    nth_error (stamped rt t found) i
    = Some {| keyword := kw; foundAt := now rt (t + i) |}.
Proof.
  induction found as [|k found IH]; intros t [|i] kw H; simpl in *;
    try discriminate.
  - injection H as ->. now rewrite Nat.add_0_r.
  - rewrite (IH (S t) i kw H). do 3 f_equal. lia.
Qed.

(** Both shapes of the keyword message end with the "Found at" field. *)
Lemma keyword_message_found_at (found : list pystr) (url : pystr)
    (timestamp : option pystr) :
  exists prefix,
    keyword_message found url timestamp
    = prefix ++ lit "<b>Found at:</b> " ++ shown timestamp.
Proof.
  unfold keyword_message.
  destruct found as [|k [|k' found]]; eexists;
    rewrite !app_assoc; reflexivity.
Qed.

Lemma posted_app evs1 evs2 : posted (evs1 ++ evs2) = posted evs1 ++ posted evs2.
Proof. apply flat_map_app. Qed.

Lemma posted_send rt chat_id message is_update t m :
  In m (posted (events (send_telegram_notification rt chat_id message
                          is_update t))) ->
  m = message.
Proof.
  unfold send_telegram_notification.
  destruct (if is_update then _ else _) as [token|];
    [destruct chat_id as [chat|]|]; try (simpl; tauto).
  destruct (nonempty token && nonempty chat); [|simpl; tauto].
  unfold events; simpl.
  destruct (post rt t token chat message); simpl; intuition congruence.
Qed.

(** C10.  The entries appended to the found log carry one clock reading
    each: the [i]-th keyword found is stamped with the reading made when it
    matched.  Every keyword message posted ends with the "Found at" field,
    and the field shows the reading of the last keyword found. *)
Theorem found_at_stamps rt (row : Row) (T : pystr) (u : update_data)
    (t : nat) (Hkeywords : row_keywords row <> []) :
  let found := found_in rt row T in
  let run :=
    process_keywords rt row (map (str_lower rt) (row_keywords row)) T u t in
  (exists u',
     outcome run = Ok u'
     /\ upd_foundKeyword u'
        = Some (row_foundKeyword row ++ stamped rt t found))
  /\ (forall i kw,
        nth_error found i = Some kw ->
        nth_error (stamped rt t found) i
        = Some {| keyword := kw; foundAt := now rt (t + i) |})
  /\ (forall message,
        In message (posted (events run)) ->
        found <> []
        /\ exists prefix,
             message = prefix ++ lit "<b>Found at:</b> "
                         ++ now rt (t + length found - 1)).
Proof.
  intros found run.
  assert (Hk : nonempty (map (str_lower rt) (row_keywords row)) = true).
  { rewrite nonempty_map. destruct (row_keywords row); [contradiction|].
    reflexivity. }
  unfold run. rewrite (process_keywords_run rt row T u t Hk).
  fold found. split; [|split].
  - eexists. split; reflexivity.
  - apply nth_error_stamped.
  - intros message H. unfold events in H; cbn [snd] in H.
    change (In message
              (posted ([Print (LogKeywordsFound (stamped rt t found))]
                       ++ events (keyword_notification rt row T t
                                    (t + length found))
                       ++ (if all_found_and_stop rt row T
                           then [Print LogMarkCompleted] else [])))) in H.
    rewrite !posted_app in H. simpl in H.
    replace (posted (if all_found_and_stop rt row T
                     then [Print LogMarkCompleted] else []))
      with (@nil pystr) in H by (destruct (all_found_and_stop rt row T);
                                 reflexivity).
    rewrite app_nil_r in H.
    unfold keyword_notification in H. fold found in H.
    destruct (truthy (row_telegramID row) && nonempty found) eqn:E;
      [|destruct H].
    apply andb_prop in E as [_ E].
    apply posted_send in H. subst message.
    destruct found as [|k l] eqn:F; [discriminate|].
    split; [discriminate|].
    apply (keyword_message_found_at (k :: l) (row_url row)
             (Some (now rt (t + length (k :: l) - 1)))).
Qed.

(** Two of the three keywords of [row_launch] are on the page. *)
Lemma found_at_stamps_example :
  row_keywords Examples.row_launch <> []
  /\ found_in Examples.healthy Examples.row_launch (lit "big sale today.")
     = [lit "today"; lit "big"]
  /\ stamped Examples.healthy 1 [lit "today"; lit "big"]
     = [{| keyword := lit "today"; foundAt := Examples.stamp 1 |};
        {| keyword := lit "big"; foundAt := Examples.stamp 2 |}]
  /\ posted (events (process_keywords Examples.healthy Examples.row_launch
                       (map ascii_lower (row_keywords Examples.row_launch))
                       (lit "big sale today.") empty_update 1))
     = [keyword_message [lit "today"; lit "big"]
          (row_url Examples.row_launch) (Some (Examples.stamp 2))]
  /\ forall message,
       In message
          (posted (events (process_keywords Examples.healthy
                             Examples.row_launch
                             (map ascii_lower
                                  (row_keywords Examples.row_launch))
                             (lit "big sale today.") empty_update 1))) ->
       found_in Examples.healthy Examples.row_launch (lit "big sale today.")
       <> []
       /\ exists prefix,
            message = prefix ++ lit "<b>Found at:</b> "
                        ++ Examples.stamp
                             (1 + length (found_in Examples.healthy
                                            Examples.row_launch
                                            (lit "big sale today.")) - 1).
Proof.
  split; [discriminate|]. split; [reflexivity|]. split; [reflexivity|].
  split; [vm_compute; reflexivity|].
  apply (found_at_stamps Examples.healthy Examples.row_launch
           (lit "big sale today.") empty_update 1).
  discriminate.
Defined.

(** * Further properties of the script *)

(** ** Sentences *)

Lemma lstrip_suffix (s : pystr) :
  exists blanks, s = blanks ++ lstrip s /\ forallb isspace blanks = true.
Proof.
  induction s as [|c s (blanks & E & B)]; simpl.
  - now exists [].
  - destruct (isspace c) eqn:C.
    + exists (c :: blanks). simpl. rewrite C, B. split; [now f_equal|reflexivity].
    + now exists [].
Qed.

Lemma lstrip_head (s : pystr) :
  match lstrip s with
  | [] => True
  | c :: _ => isspace c = false
  end.
Proof.
  induction s as [|c s IH]; simpl; [exact I|].
  destruct (isspace c) eqn:C; [exact IH|exact C].
Qed.

Lemma lstrip_fixed (s : pystr) :
  match s with [] => True | c :: _ => isspace c = false end ->
  lstrip s = s.
Proof. destruct s as [|c s]; simpl; [reflexivity|]. now intros ->. Qed.

Lemma strip_fixed (s : pystr) : strip (strip s) = strip s.
Proof.
  unfold strip, rstrip.
  pose proof (lstrip_head s) as Hq. set (q := lstrip s) in *.
  pose proof (lstrip_head (rev q)) as Hr.
  destruct (lstrip_suffix (rev q)) as (blanks & E & _).
  set (r := lstrip (rev q)) in *.
  assert (Hhead : match rev r with [] => True | c :: _ => isspace c = false end).
  { apply (f_equal (@rev char)) in E. rewrite rev_involutive, rev_app_distr in E.
    destruct (rev r) as [|c r'] eqn:R; [exact I|].
    rewrite E in Hq. exact Hq. }
  rewrite (lstrip_fixed (rev r) Hhead), rev_involutive.
  now rewrite (lstrip_fixed r Hr).
Qed.

(** X3.  Every sentence that [split_sentences] returns is non-empty and
    carries no whitespace at either end. *)
Theorem split_sentences_stripped (text : pystr) :
  Forall (fun sentence => sentence <> [] /\ strip sentence = sentence)
         (split_sentences text).
Proof.
  unfold split_sentences. apply Forall_forall. intros s H.
  apply filter_In in H as [H N].
  apply in_map_iff in H as (piece & <- & _).
  split; [|apply strip_fixed].
  intros E. rewrite E in N. discriminate.
Qed.

Lemma re_split_no_terminator (text : pystr) :
  forall cur,
    forallb (fun c => negb (is_terminator c)) text = true ->
    re_split_from cur false false text = [rev cur ++ text].
Proof.
  induction text as [|c text IH]; intros cur H; simpl.
  - now rewrite app_nil_r.
  - simpl in H. apply andb_prop in H as [Hc H].
    apply negb_true_iff in Hc. rewrite andb_false_r, Hc.
    rewrite (IH (c :: cur) H). simpl. now rewrite <- app_assoc.
Qed.

(** X4.  A text without ['.'], ['!'] and ['?'] is one sentence, the text
    without the whitespace at its ends, or no sentence when it is blank. *)
Theorem split_sentences_no_terminator (text : pystr)
    (Hplain : forallb (fun c => negb (is_terminator c)) text = true) :
  split_sentences text
  = if nonempty (strip text) then [strip text] else [].
Proof.
  unfold split_sentences, re_split.
  rewrite (re_split_no_terminator text [] Hplain). reflexivity.
Qed.

Lemma split_sentences_no_terminator_example :
  forallb (fun c => negb (is_terminator c)) (lit "  coming soon  ") = true
  /\ split_sentences (lit "  coming soon  ")
     = (if nonempty (strip (lit "  coming soon  "))
        then [strip (lit "  coming soon  ")] else [])
  /\ strip (lit "  coming soon  ") = lit "coming soon".
Proof.
  split; [reflexivity|]. split; [|reflexivity].
  apply (split_sentences_no_terminator (lit "  coming soon  ")). reflexivity.
Defined.

(** ** The sentence loop *)

Lemma compare_sentences_equal_pairs rt (pairs : list (pystr * pystr))
    (t : nat) :
  Forall (fun p => fst p = snd p) pairs ->
  compare_sentences rt pairs t = (Ok [], t, []).
Proof.
  induction 1 as [|[a b] pairs E _ IH]; simpl; [reflexivity|].
  simpl in E. subst b. rewrite eqb_refl. exact IH.
Qed.

Lemma combine_prefix_l (l extra : list pystr) :
  Forall (fun p => fst p = snd p) (combine l (l ++ extra)).
Proof. induction l; simpl; constructor; auto. Qed.

Lemma combine_prefix_r (l extra : list pystr) :
  Forall (fun p => fst p = snd p) (combine (l ++ extra) l).
Proof. induction l; simpl; [destruct extra|]; constructor; auto. Qed.

(** X5.  Sentences are paired by position up to the shorter text: when one
    text has the sentences of the other followed by more sentences, nothing
    is reported, in either direction. *)
Theorem get_diff_ignores_tail rt (old_text new_text : pystr)
    (extra : list pystr) (t : nat)
    (Htail : split_sentences new_text = split_sentences old_text ++ extra
             \/ split_sentences old_text
                = split_sentences new_text ++ extra) :
  get_diff rt old_text new_text t = (Ok [], t, []).
Proof.
  unfold get_diff. apply compare_sentences_equal_pairs.
  destruct Htail as [-> | ->];
    [apply combine_prefix_l|apply combine_prefix_r].
Qed.

Lemma get_diff_ignores_tail_example :
  split_sentences (lit "Open today. Sale on! New: shoes.")
  = split_sentences (lit "Open today.  Sale on!") ++ [lit "New: shoes."]
  /\ get_diff Examples.offline (lit "Open today.  Sale on!")
       (lit "Open today. Sale on! New: shoes.") 0
     = (Ok [], 0, []).
Proof.
  split; [reflexivity|].
  apply (get_diff_ignores_tail Examples.offline (lit "Open today.  Sale on!")
           (lit "Open today. Sale on! New: shoes.") [lit "New: shoes."] 0).
  left. reflexivity.
Defined.

Lemma word_diff_change_cases rt (old_sent new_sent : pystr) (t : nat) :
  if is_some (ndiff rt (split old_sent) (split new_sent))
  then word_diff_change rt old_sent new_sent t = (Ok None, t, [])
       \/ exists c,
            word_diff_change rt old_sent new_sent t = (Ok (Some c), S t, [])
            /\ time c = now rt t
            /\ action c = lit "added"
            /\ context c <> None
  else word_diff_change rt old_sent new_sent t
       = (Raise RecursionError, t, []).
Proof.
  unfold word_diff_change.
  destruct (ndiff rt (split old_sent) (split new_sent)) as [word_diff|];
    cbn [is_some]; [|reflexivity].
  destruct (nonempty (map snd (inserted_lines word_diff))).
  - right. eexists. unfold bind, strftime_now, ret; simpl.
    repeat split. discriminate.
  - left. reflexivity.
Qed.

Lemma compare_sentences_bounds rt (pairs : list (pystr * pystr)) :
  forall t,
    if differ_returns rt pairs
    then exists l,
           compare_sentences rt pairs t = (Ok l, t + length l, [])
           /\ length l <= length pairs
           /\ map time l = map (now rt) (seq t (length l))
           /\ Forall (fun c => action c = lit "added" /\ context c <> None)
                     l
    else exists n,
           compare_sentences rt pairs t = (Raise RecursionError, t + n, [])
           /\ n < length pairs.
Proof.
  induction pairs as [|[old_sent new_sent] pairs IH]; intros t;
    cbn [compare_sentences differ_returns forallb fst snd].
  - exists []. rewrite Nat.add_0_r. repeat split; constructor.
  - fold (differ_returns rt pairs).
    destruct (PyStr.eqb old_sent new_sent); cbn [negb orb andb length].
    { specialize (IH t). destruct (differ_returns rt pairs).
      - destruct IH as (l & -> & Hlen & Htime & Hall).
        exists l. repeat split; auto.
      - destruct IH as (n & -> & Hn). exists n. split; [reflexivity|lia]. }
    pose proof (word_diff_change_cases rt old_sent new_sent t) as Hc.
    destruct (is_some (ndiff rt (split old_sent) (split new_sent)));
      cbn [andb].
    + destruct Hc as [E|(c & E & Ht & Ha & Hc)];
        rewrite (bind_silent _ _ _ _ _ E).
      * specialize (IH t). destruct (differ_returns rt pairs).
        -- destruct IH as (l & El & Hlen & Htime & Hall).
           rewrite (bind_silent _ _ _ _ _ El).
           exists l. repeat split; auto.
        -- destruct IH as (n & El & Hn).
           rewrite (bind_raise _ _ _ _ _ _ El).
           exists n. split; [reflexivity|lia].
      * specialize (IH (S t)). destruct (differ_returns rt pairs).
        -- destruct IH as (l & El & Hlen & Htime & Hall).
           rewrite (bind_silent _ _ _ _ _ El).
           exists (c :: l). cbn [length map seq].
           replace (S t + length l) with (t + S (length l)) by lia.
           split; [reflexivity|]. split; [lia|].
           split; [now rewrite Ht, Htime|].
           constructor; [split; assumption|exact Hall].
        -- destruct IH as (n & El & Hn).
           rewrite (bind_raise _ _ _ _ _ _ El).
           exists (S n).
           replace (t + S n) with (S t + n) by lia.
           split; [reflexivity|lia].
    + rewrite (bind_raise _ _ _ _ _ _ Hc). exists 0.
      rewrite Nat.add_0_r. split; [reflexivity|lia].
Qed.

(** X6.  [get_diff] prints nothing.  When the differ returns on every pair
    of unequal sentences, [get_diff] returns: it reports at most one change
    per pair of sentences, so at most as many as the shorter text has
    sentences; every change has action "added" and a context, and the clock
    is read once per change, in order.  When the differ raises on a pair,
    [get_diff] raises [RecursionError], after fewer clock readings than the
    shorter text has sentences. *)
Theorem get_diff_bounds rt (old_text new_text : pystr) (t : nat) :
  if diff_returns rt old_text new_text
  then exists changes,
         get_diff rt old_text new_text t
         = (Ok changes, t + length changes, [])
         /\ length changes
            <= Nat.min (length (split_sentences old_text))
                       (length (split_sentences new_text))
         /\ map time changes = map (now rt) (seq t (length changes))
         /\ Forall (fun c => action c = lit "added" /\ context c <> None)
                   changes
  else exists n,
         get_diff rt old_text new_text t = (Raise RecursionError, t + n, [])
         /\ n < Nat.min (length (split_sentences old_text))
                        (length (split_sentences new_text)).
Proof.
  unfold get_diff, diff_returns.
  pose proof (compare_sentences_bounds rt
                (combine (split_sentences old_text)
                         (split_sentences new_text)) t) as H.
  rewrite length_combine in H. exact H.
Qed.

(** ** The detailed update message *)

(** X7.  [format_updates_message] returns the message unchanged when it has
    at most 4096 characters; a longer one comes back with exactly 4039
    characters, its first 4000 followed by the notice. *)
Theorem format_updates_message_length rt (url : pystr)
    (updates new_detected_changes : list Change) :
  let body := updates_message_body rt url updates new_detected_changes in
  let message := format_updates_message rt url updates new_detected_changes in
  (length body <= 4096 -> message = body)
  /\ (4096 < length body ->
      length message = 4039
      /\ firstn 4000 message = firstn 4000 body
      /\ skipn 4000 message = truncation_notice).
Proof.
  intros body message. unfold message, format_updates_message. fold body.
  split; intros H.
  - apply Nat.ltb_ge in H. now rewrite H.
  - assert (L : length (firstn 4000 body) = 4000)
      by (rewrite length_firstn; lia).
    apply Nat.ltb_lt in H. rewrite H.
    split; [|split].
    + rewrite length_app, L. reflexivity.
    + rewrite firstn_app, L, Nat.sub_diag, firstn_firstn. simpl.
      now rewrite app_nil_r.
    + rewrite skipn_app, L, Nat.sub_diag.
      rewrite (skipn_all2 (firstn 4000 body)) by lia. reflexivity.
Qed.

(** A row with a long address: the detailed message is cut. *)
Lemma format_updates_message_length_example :
  4096 < length (updates_message_body Examples.healthy Examples.long_url
                   [Scenarios.logged 1] [])
  /\ length (format_updates_message Examples.healthy Examples.long_url
               [Scenarios.logged 1] []) = 4039
  /\ length (updates_message_body Examples.healthy (lit "https://a.example")
               [Scenarios.logged 1] []) <= 4096
  /\ format_updates_message Examples.healthy (lit "https://a.example")
       [Scenarios.logged 1] []
     = updates_message_body Examples.healthy (lit "https://a.example")
         [Scenarios.logged 1] [].
Proof.
  assert (H1 : 4096 < length (updates_message_body Examples.healthy
                                Examples.long_url [Scenarios.logged 1] []))
    by (vm_compute; lia).
  assert (H2 : length (updates_message_body Examples.healthy
                         (lit "https://a.example") [Scenarios.logged 1] [])
               <= 4096)
    by (vm_compute; lia).
  split; [exact H1|].
  split; [apply (proj2 (format_updates_message_length Examples.healthy
                          Examples.long_url [Scenarios.logged 1] []) H1)|].
  split; [exact H2|].
  apply (proj1 (format_updates_message_length Examples.healthy
                  (lit "https://a.example") [Scenarios.logged 1] []) H2).
Defined.

Lemma last_n_app {A} (n : nat) (older l : list A) :
  n <= length l -> last_n n (older ++ l) = last_n n l.
Proof.
  intros H. unfold last_n. rewrite length_app, skipn_app.
  rewrite (skipn_all2 older) by lia. simpl. f_equal. lia.
Qed.

(** X8.  Of the log only the last five entries are shown: entries older than
    those do not change the message. *)
Theorem format_updates_message_last_five rt (url : pystr)
    (older updates new_detected_changes : list Change)
    (Hfive : 5 <= length updates) :
  format_updates_message rt url (older ++ updates) new_detected_changes
  = format_updates_message rt url updates new_detected_changes.
Proof.
  unfold format_updates_message, updates_message_body.
  rewrite (last_n_app 5 older updates Hfive).
  replace (nonempty (older ++ updates)) with (nonempty updates);
    [reflexivity|].
  destruct updates; [simpl in Hfive; lia|]. now destruct older.
Qed.

Lemma format_updates_message_last_five_example :
  5 <= length (map Scenarios.logged [2; 3; 4; 5; 6])
  /\ format_updates_message Examples.healthy (lit "https://a.example")
       (map Scenarios.logged [0; 1] ++ map Scenarios.logged [2; 3; 4; 5; 6])
       []
     = format_updates_message Examples.healthy (lit "https://a.example")
         (map Scenarios.logged [2; 3; 4; 5; 6]) [].
Proof.
  split; [simpl; lia|].
  apply (format_updates_message_last_five Examples.healthy
           (lit "https://a.example") (map Scenarios.logged [0; 1])
           (map Scenarios.logged [2; 3; 4; 5; 6]) []).
  simpl; lia.
Defined.

Lemma last_n_new {A} (log new : list A) :
  length new <= 5 ->
  last_n 5 (log ++ new) = last_n (5 - length new) log ++ new.
Proof.
  intros H. unfold last_n. rewrite length_app, skipn_app.
  replace (length log + length new - 5 - length log) with 0 by lia.
  replace (length log + length new - 5)
    with (length log - (5 - length new)) by lia.
  reflexivity.
Qed.

(** X9.  [process_row] extends the log with the changes of the cycle before
    it formats the message, so the message shows them twice: under "New
    Changes" and again as the last entries under "Previous Changes". *)
Theorem new_changes_shown_twice rt (url : pystr) (log text_diffs : list Change)
    (Hsome : text_diffs <> []) (Hfew : length text_diffs <= 5) :
  updates_message_body rt url (log ++ text_diffs) text_diffs
  = ([128260%N] ++ lit " <b>Website Changes Detected</b>" ++ nl ++ nl
       ++ lit "<b>URL:</b> " ++ url ++ nl ++ nl)
    ++ lit "<b>New Changes:</b>" ++ nl
    ++ render_changes rt text_diffs ++ nl
    ++ lit "<b>Previous Changes:</b>" ++ nl
    ++ render_changes rt (last_n (5 - length text_diffs) log)
    ++ render_changes rt text_diffs.
Proof.
  unfold updates_message_body, render_changes.
  rewrite (last_n_new log text_diffs Hfew), map_app, concat_app.
  replace (nonempty (log ++ text_diffs)) with true
    by (destruct log; destruct text_diffs; try reflexivity; contradiction).
  replace (nonempty text_diffs) with true
    by (destruct text_diffs; [contradiction|reflexivity]).
  rewrite <- !app_assoc. reflexivity.
Qed.

Lemma new_changes_shown_twice_example :
  [Scenarios.logged 2] <> []
  /\ length [Scenarios.logged 2] <= 5
  /\ updates_message_body Examples.healthy (lit "https://a.example")
       ([Scenarios.logged 1] ++ [Scenarios.logged 2]) [Scenarios.logged 2]
     = ([128260%N] ++ lit " <b>Website Changes Detected</b>" ++ nl ++ nl
          ++ lit "<b>URL:</b> " ++ lit "https://a.example" ++ nl ++ nl)
       ++ lit "<b>New Changes:</b>" ++ nl
       ++ render_changes Examples.healthy [Scenarios.logged 2] ++ nl
       ++ lit "<b>Previous Changes:</b>" ++ nl
       ++ render_changes Examples.healthy
            (last_n (5 - length [Scenarios.logged 2]) [Scenarios.logged 1])
       ++ render_changes Examples.healthy [Scenarios.logged 2].
Proof.
  split; [discriminate|]. split; [simpl; lia|].
  apply (new_changes_shown_twice Examples.healthy (lit "https://a.example")
           [Scenarios.logged 1] [Scenarios.logged 2]);
    [discriminate|simpl; lia].
Defined.

(** ** Notifications *)

(** The run of [send_telegram_notification], by cases on the token, the
    chat id and the answer to the post. *)
Lemma send_run rt (chat_id : option pystr)
    (message : pystr) (is_update : bool) (t : nat) :
  let token :=
    if is_update then TELEGRAM_UPDATES_BOT_TOKEN rt
    else TELEGRAM_BOT_TOKEN rt in
  let run := send_telegram_notification rt chat_id message is_update t in
  outcome run = Ok tt
  /\ posted (events run)
     = (if truthy token && truthy chat_id then [message] else [])
  /\ steps run = (if truthy token && truthy chat_id then S t else t)
  /\ Forall talk (events run).
Proof.
  unfold send_telegram_notification.
  destruct (if is_update then _ else _) as [token|];
    [destruct chat_id as [chat|]|]; cbn [truthy].
  - destruct (nonempty token && nonempty chat).
    + unfold outcome, events, steps; cbn [fst snd].
      destruct (post rt t token chat message);
        repeat split; repeat constructor.
    + repeat split. repeat constructor.
  - rewrite andb_false_r. repeat split. repeat constructor.
  - repeat split. repeat constructor.
Qed.

(** X1.  [send_telegram_notification] never raises, whatever [requests.post]
    does.  With a token for the chosen bot and a chat id it posts the message
    once; when either is missing or empty it posts nothing.  Its only other
    events are console lines. *)
Theorem send_telegram_notification_posts rt (chat_id : option pystr)
    (message : pystr) (is_update : bool) (t : nat) :
  let token :=
    if is_update then TELEGRAM_UPDATES_BOT_TOKEN rt
    else TELEGRAM_BOT_TOKEN rt in
  let run := send_telegram_notification rt chat_id message is_update t in
  outcome run = Ok tt
  /\ posted (events run)
     = (if truthy token && truthy chat_id then [message] else [])
  /\ steps run = (if truthy token && truthy chat_id then S t else t)
  /\ Forall talk (events run).
Proof. apply send_run. Qed.

Lemma talk_browsed evs : Forall talk evs -> browsed evs = [].
Proof.
  induction 1 as [|e evs He _ IH]; simpl; [reflexivity|].
  rewrite IH. destruct e; simpl in *; try reflexivity; contradiction.
Qed.

Lemma talk_pauses evs : Forall talk evs -> pauses evs = [].
Proof.
  induction 1 as [|e evs He _ IH]; simpl; [reflexivity|].
  rewrite IH. destruct e; simpl in *; try reflexivity; contradiction.
Qed.

Lemma talk_not_update evs : Forall talk evs -> Forall not_update evs.
Proof.
  apply Forall_impl. intros e. destruct e; simpl; tauto.
Qed.

Lemma send_talks rt chat_id message is_update t :
  Forall talk (events (send_telegram_notification rt chat_id message
                         is_update t)).
Proof. apply send_run. Qed.

Lemma keyword_notification_talks rt row T t t0 :
  Forall talk (events (keyword_notification rt row T t t0)).
Proof.
  unfold keyword_notification.
  destruct (_ && _); [apply send_talks|constructor].
Qed.

Lemma update_notification_talks rt row updates_log text_diffs t :
  Forall talk (events (update_notification rt row updates_log text_diffs t)).
Proof.
  unfold update_notification.
  destruct (truthy (row_telegramID row)); [|constructor].
  destruct (row_shouldSendDetailedUpdates row).
  - rewrite (bind_silent _ _ _ _ _ eq_refl). apply send_talks.
  - unfold bind at 1, strftime_now. unfold bind, ret.
    match goal with
    | |- context [send_telegram_notification ?r ?c ?m ?u ?s] =>
        pose proof (send_talks r c m u s) as H;
        destruct (send_telegram_notification r c m u s) as [[o t1] e1]
    end.
    exact H.
Qed.

Lemma process_keywords_talks rt row T u t :
  Forall talk (events (process_keywords rt row
                         (map (str_lower rt) (row_keywords row)) T u t)).
Proof.
  destruct (nonempty (map (str_lower rt) (row_keywords row))) eqn:E.
  - rewrite (process_keywords_run rt row T u t E). unfold events at 1; simpl.
    constructor; [exact I|]. apply Forall_app; split.
    + apply keyword_notification_talks.
    + destruct (all_found_and_stop rt row T); repeat constructor.
  - unfold process_keywords. rewrite E. constructor.
Qed.

Lemma process_updates_talks rt row T u t :
  Forall talk (events (process_updates rt row T u t)).
Proof.
  destruct (updates_return rt row T) eqn:R.
  2:{ destruct (process_updates_raise rt row T u t R) as (t1 & _ & ->).
      repeat constructor. }
  unfold updates_return in R.
  destruct (diff_needed row T) eqn:E.
  - destruct (process_updates_diff rt row T u t E R) as (l & t1 & _ & ->).
    unfold events at 1; simpl. constructor; [exact I|].
    apply Forall_app; split.
    + destruct (nonempty l); repeat constructor.
    + apply update_notification_talks.
  - rewrite (process_updates_idle rt row T u t E).
    destruct (row_checkUpdates row); repeat constructor.
Qed.

Lemma get_text_run rt url t :
  exists T evs,
    get_text_from_url rt url t = (Ok T, S t, evs)
    /\ Forall not_update evs
    /\ (T = [] \/ exists text, selenium rt t url = BodyText text
                               /\ T = str_lower rt text).
Proof.
  unfold get_text_from_url.
  destruct (selenium rt t url) as [| |text|]; do 2 eexists;
    (split; [reflexivity|]); (split; [repeat constructor|]); eauto.
Qed.

(** ** One row, again *)

(** The fetch opens the page unless the driver cannot be set up, and
    pauses for two seconds once the body of the page is there. *)
Lemma get_text_prints rt url t :
  posted (events (get_text_from_url rt url t)) = []
  /\ browsed (events (get_text_from_url rt url t))
     = match selenium rt t url with
       | DriverFailed => []
       | _ => [url]
       end
  /\ writes (events (get_text_from_url rt url t)) = []
  /\ pauses (events (get_text_from_url rt url t))
     = match selenium rt t url with
       | BodyText _ | TextFailed => [2]
       | _ => []
       end
  /\ steps (get_text_from_url rt url t) = S t.
Proof.
  unfold get_text_from_url. destruct (selenium rt t url); repeat split.
Qed.

Lemma posted_app' evs1 evs2 :
  posted (evs1 ++ evs2) = posted evs1 ++ posted evs2.
Proof. apply flat_map_app. Qed.

Lemma browsed_app evs1 evs2 :
  browsed (evs1 ++ evs2) = browsed evs1 ++ browsed evs2.
Proof. apply flat_map_app. Qed.

Lemma pauses_app evs1 evs2 :
  pauses (evs1 ++ evs2) = pauses evs1 ++ pauses evs2.
Proof. apply flat_map_app. Qed.

Lemma posted_send_le rt chat_id message is_update t :
  length (posted (events (send_telegram_notification rt chat_id message
                            is_update t))) <= 1.
Proof.
  destruct (send_run rt chat_id message is_update t) as (_ & -> & _).
  destruct (_ && _); simpl; lia.
Qed.

Lemma posted_keywords_le rt row T u t :
  length (posted (events (process_keywords rt row
                            (map (str_lower rt) (row_keywords row)) T u t)))
  <= 1.
Proof.
  destruct (nonempty (map (str_lower rt) (row_keywords row))) eqn:E.
  - rewrite (process_keywords_run rt row T u t E). unfold events at 1.
    cbn [snd].
    change (Print (LogKeywordsFound (stamped rt t (found_in rt row T)))
            :: ?x) with ([Print (LogKeywordsFound
                                   (stamped rt t (found_in rt row T)))] ++ x).
    rewrite !posted_app'. simpl.
    replace (posted (if all_found_and_stop rt row T
                     then [Print LogMarkCompleted] else []))
      with (@nil pystr) by (destruct (all_found_and_stop rt row T);
                            reflexivity).
    rewrite app_nil_r. unfold keyword_notification.
    destruct (_ && _); [apply posted_send_le|simpl; lia].
  - unfold process_keywords. rewrite E. simpl. lia.
Qed.

Lemma posted_update_notification_le rt row updates_log text_diffs t :
  length (posted (events (update_notification rt row updates_log
                            text_diffs t))) <= 1.
Proof.
  unfold update_notification.
  destruct (truthy (row_telegramID row)); [|simpl; lia].
  destruct (row_shouldSendDetailedUpdates row).
  - rewrite (bind_silent _ _ _ _ _ eq_refl). apply posted_send_le.
  - unfold bind at 1, strftime_now. unfold bind, ret.
    match goal with
    | |- context [send_telegram_notification ?r ?c ?m ?u ?s] =>
        pose proof (posted_send_le r c m u s) as H;
        destruct (send_telegram_notification r c m u s) as [[o t1] e1]
    end.
    exact H.
Qed.

Lemma posted_updates_le rt row T u t :
  length (posted (events (process_updates rt row T u t))) <= 1.
Proof.
  destruct (updates_return rt row T) eqn:R.
  2:{ destruct (process_updates_raise rt row T u t R) as (t1 & _ & ->).
      simpl. lia. }
  unfold updates_return in R.
  destruct (diff_needed row T) eqn:E.
  - destruct (process_updates_diff rt row T u t E R) as (l & t1 & _ & ->).
    unfold events at 1. cbn [snd].
    change (Print LogChangeDetected :: ?x)
      with ([Print LogChangeDetected] ++ x).
    rewrite !posted_app'. simpl.
    replace (posted (if nonempty l then [Print (LogUpdates l)] else []))
      with (@nil pystr) by (destruct (nonempty l); reflexivity).
    apply posted_update_notification_le.
  - rewrite (process_updates_idle rt row T u t E).
    destruct (row_checkUpdates row); simpl; lia.
Qed.

(** The trace of a row that is not skipped: the fetch, the two blocks, which
    only post and print, and at most one write; when the update block
    raises, the row ends there. *)
Lemma process_row_trace rt row t :
  active rt row = true ->
  exists T e1 u1 t2 e2 r3 t3 e3,
    get_text_from_url rt (row_url row) t = (Ok T, S t, e1) /\
    process_keywords rt row (map (str_lower rt) (row_keywords row)) T
      (initial_update row T) (S t) = (Ok u1, t2, e2) /\
    process_updates rt row T u1 t2 = (r3, t3, e3) /\
    match r3 with
    | Ok u2 =>
        updates_return rt row T = true /\
        process_row rt row t =
          if update_nonempty u2 then
            if execute_update rt t3 (row_id row) u2
            then (Ok tt, S t3,
                  (e1 ++ e2 ++ e3)
                    ++ [Update (row_id row) u2 true;
                        Print (LogUpdated (row_url row))])
            else (Raise SupabaseError, S t3,
                  (e1 ++ e2 ++ e3) ++ [Update (row_id row) u2 false])
          else (Ok tt, t3, e1 ++ e2 ++ e3)
    | Raise e =>
        e = RecursionError /\
        updates_return rt row T = false /\
        process_row rt row t = (Raise RecursionError, t3, e1 ++ e2 ++ e3)
    end.
Proof.
  unfold active. intros H. apply andb_prop in H as [Hc Hw].
  apply negb_true_iff in Hc.
  destruct (process_row_run rt row t Hc Hw)
    as (T & t1 & e1 & u1 & t2 & e2 & E1 & E2 & _ & R).
  assert (t1 = S t).
  { destruct (get_text_prints rt (row_url row) t) as (_ & _ & _ & _ & S1).
    rewrite E1 in S1. exact S1. }
  subst t1. exists T, e1, u1, t2, e2.
  destruct (updates_return rt row T).
  - destruct R as (u2 & t3 & e3 & E3 & _ & R).
    exists (Ok u2), t3, e3. repeat split; assumption.
  - destruct R as (t3 & E3 & R).
    exists (Raise RecursionError), t3, [Print LogChangeDetected].
    repeat split; assumption.
Qed.

Lemma process_row_inactive rt row t :
  active rt row = false ->
  exists line, process_row rt row t = (Ok tt, t, [Print line]).
Proof.
  unfold active. intros H.
  destruct (row_completed row) eqn:Hc.
  - eexists. apply process_row_completed, Hc.
  - simpl in H. eexists. apply process_row_no_work; assumption.
Qed.

(** X17.  One cycle of one row opens the page at most once, writes to the
    store at most once, posts at most two messages and pauses at most once,
    for the two seconds of the fetch; a row that is completed, or has
    neither keywords nor [checkUpdates], does none of these and makes no
    external call at all. *)
Theorem process_row_bounds rt (row : Row) (t : nat) :
  let run := process_row rt row t in
  length (browsed (events run)) <= 1
  /\ length (writes (events run)) <= 1
  /\ length (posted (events run)) <= 2
  /\ (pauses (events run) = [] \/ pauses (events run) = [2])
  /\ (active rt row = false ->
      browsed (events run) = [] /\ writes (events run) = []
      /\ posted (events run) = [] /\ pauses (events run) = []
      /\ steps run = t).
Proof.
  intros run. unfold run.
  destruct (active rt row) eqn:A.
  - destruct (process_row_trace rt row t A)
      as (T & e1 & u1 & t2 & e2 & r3 & t3 & e3 & E1 & E2 & E3 & R).
    destruct (get_text_prints rt (row_url row) t) as (P1 & B1 & W1 & S1 & _).
    rewrite E1 in P1, B1, W1, S1. unfold events in P1, B1, W1, S1.
    cbn [snd] in P1, B1, W1, S1.
    pose proof (process_keywords_talks rt row T (initial_update row T) (S t))
      as K2.
    pose proof (posted_keywords_le rt row T (initial_update row T) (S t))
      as L2.
    rewrite E2 in K2, L2. unfold events in K2, L2. cbn [snd] in K2, L2.
    pose proof (process_updates_talks rt row T u1 t2) as K3.
    pose proof (posted_updates_le rt row T u1 t2) as L3.
    rewrite E3 in K3, L3. unfold events in K3, L3. cbn [snd] in K3, L3.
    assert (B : length (browsed (e1 ++ e2 ++ e3)) <= 1).
    { rewrite !browsed_app, B1, (talk_browsed _ K2), (talk_browsed _ K3).
      destruct (selenium rt t (row_url row)); simpl; lia. }
    assert (W : writes (e1 ++ e2 ++ e3) = [])
      by (rewrite !writes_app, W1,
            (writes_quiet _ (talk_not_update _ K2)),
            (writes_quiet _ (talk_not_update _ K3)); reflexivity).
    assert (S : pauses (e1 ++ e2 ++ e3) = []
                \/ pauses (e1 ++ e2 ++ e3) = [2]).
    { rewrite !pauses_app, S1, (talk_pauses _ K2), (talk_pauses _ K3).
      destruct (selenium rt t (row_url row)); simpl; auto. }
    assert (P : length (posted (e1 ++ e2 ++ e3)) <= 2)
      by (rewrite !posted_app', P1, !length_app; simpl; lia).
    destruct r3 as [u2|e]; [destruct R as [_ R]|destruct R as (_ & _ & R)];
      rewrite R.
    + destruct (update_nonempty u2);
        [destruct (execute_update rt t3 (row_id row) u2)|];
        unfold events; cbn [snd];
        [rewrite browsed_app, writes_app, posted_app', pauses_app, W
        |rewrite browsed_app, writes_app, posted_app', pauses_app, W
        |rewrite W];
        simpl; rewrite ?app_nil_r; repeat split; try lia; try assumption;
        intros; discriminate.
    + unfold events; cbn [snd]. rewrite W.
      repeat split; try assumption; try (simpl; lia); intros; discriminate.
  - destruct (process_row_inactive rt row t A) as (line & ->).
    simpl. repeat split; auto; lia.
Qed.

Lemma process_row_bounds_example :
  active Examples.healthy Examples.row_done = false
  /\ browsed (events (process_row Examples.healthy Examples.row_done 7)) = []
  /\ writes (events (process_row Examples.healthy Examples.row_done 7)) = []
  /\ posted (events (process_row Examples.healthy Examples.row_done 7)) = []
  /\ pauses (events (process_row Examples.healthy Examples.row_done 7)) = []
  /\ steps (process_row Examples.healthy Examples.row_done 7) = 7.
Proof.
  split; [reflexivity|].
  apply (proj2 (proj2 (proj2 (proj2
           (process_row_bounds Examples.healthy Examples.row_done 7))))).
  reflexivity.
Defined.

(** X16.  [process_row] raises in two ways only.  It raises the exception
    of the store exactly when its store write fails.  It raises
    [RecursionError] exactly when the row is not skipped and the differ
    raises on a comparison of the update block, and then nothing has been
    written.  A failed fetch, a missing token and a failed post never make
    it raise. *)
Theorem process_row_raises_iff_write_fails rt (row : Row) (t : nat) :
  (outcome (process_row rt row t) = Raise SupabaseError
   <-> failed_writes (events (process_row rt row t)) = [row_id row])
  /\ (outcome (process_row rt row t) = Raise RecursionError
      <-> active rt row = true
          /\ exists T,
               outcome (get_text_from_url rt (row_url row) t) = Ok T
               /\ updates_return rt row T = false)
  /\ (outcome (process_row rt row t) = Raise RecursionError ->
      writes (events (process_row rt row t)) = []).
Proof.
  split; [split|split; [split|]].
  - intros H.
    destruct (process_row rt row t) as [[r t'] ev] eqn:E.
    unfold outcome in H; simpl in H; subst r.
    destruct (process_row_raise rt row t _ _ _ E)
      as [(_ & data & before & -> & Q)|[K _]]; [|discriminate].
    unfold events; cbn [snd].
    rewrite failed_writes_app, (failed_writes_quiet _ Q). reflexivity.
  - intros H.
    rewrite (process_row_failed_write rt row t (row_id row));
      [reflexivity|]. rewrite H. left. reflexivity.
  - intros H. destruct (active rt row) eqn:A.
    + split; [reflexivity|].
      destruct (process_row_trace rt row t A)
        as (T & e1 & u1 & t2 & e2 & r3 & t3 & e3 & E1 & _ & _ & R).
      exists T. rewrite E1. split; [reflexivity|].
      destruct r3 as [u2|e]; [|tauto].
      destruct R as [_ R]. rewrite R in H.
      destruct (update_nonempty u2);
        [destruct (execute_update rt t3 (row_id row) u2)|]; discriminate.
    + destruct (process_row_inactive rt row t A) as (line & E).
      rewrite E in H. discriminate.
  - intros (A & T & HT & Hr).
    destruct (process_row_trace rt row t A)
      as (T' & e1 & u1 & t2 & e2 & r3 & t3 & e3 & E1 & _ & _ & R).
    rewrite E1 in HT. injection HT as ->.
    destruct r3 as [u2|e].
    + destruct R as [R _]. congruence.
    + destruct R as (_ & _ & ->). reflexivity.
  - intros H.
    destruct (process_row rt row t) as [[r t'] ev] eqn:E.
    unfold outcome in H; simpl in H; subst r.
    destruct (process_row_raise rt row t _ _ _ E) as [[K _]|[_ Q]];
      [discriminate|].
    apply writes_quiet, Q.
Qed.

(** The store write of [row_sale] fails; the differ raises on
    [Scenarios.row_deep]; a page that cannot be fetched raises nothing. *)
Lemma process_row_raises_iff_write_fails_example :
  failed_writes (events (process_row Examples.failing_store
                           Examples.row_sale 1)) = [row_id Examples.row_sale]
  /\ outcome (process_row Examples.failing_store Examples.row_sale 1)
     = Raise SupabaseError
  /\ updates_return Scenarios.deep_page Scenarios.row_deep Scenarios.deep_new
     = false
  /\ outcome (process_row Scenarios.deep_page Scenarios.row_deep 0)
     = Raise RecursionError
  /\ outcome (process_row Scenarios.unreachable Examples.row_quiet 1)
     = Ok tt.
Proof.
  split; [vm_compute; reflexivity|].
  split.
  { apply (proj2 (proj1 (process_row_raises_iff_write_fails
                           Examples.failing_store Examples.row_sale 1))).
    vm_compute; reflexivity. }
  split; [exact deep_updates_raise|].
  split; [|vm_compute; reflexivity].
  apply (proj2 (proj1 (proj2 (process_row_raises_iff_write_fails
                                Scenarios.deep_page Scenarios.row_deep 0)))).
  split; [reflexivity|]. exists Scenarios.deep_new.
  split; [vm_compute; reflexivity|exact deep_updates_raise].
Defined.

Lemma keywords_staged_reference rt row T u t :
  upd_reference (keywords_staged rt row T u t) = upd_reference u.
Proof. reflexivity. Qed.

Lemma after_keywords_reference rt row T t1 :
  upd_reference (after_keywords rt row T t1)
  = if PyStr.eqb T (row_reference row) then None else Some T.
Proof.
  unfold after_keywords, initial_update.
  destruct (nonempty _); destruct (PyStr.eqb T (row_reference row));
    reflexivity.
Qed.

(** X10.  The reference is replaced exactly when the fetched text differs
    from it.  A row that is not skipped and whose page text differs from the
    stored reference makes one write, which stages the new text as
    reference, when its update block returns; when the differ raises in that
    block, the row raises and writes nothing.  When the text is the same, no
    write stages a reference. *)
Theorem reference_staged_when_changed rt (row : Row) (t : nat)
    (Hactive : active rt row = true) :
  exists T,
    outcome (get_text_from_url rt (row_url row) t) = Ok T
    /\ (T <> row_reference row ->
        if updates_return rt row T
        then exists data ok,
               writes (events (process_row rt row t))
               = [(row_id row, data, ok)]
               /\ upd_reference data = Some T
        else outcome (process_row rt row t) = Raise RecursionError
             /\ writes (events (process_row rt row t)) = [])
    /\ (T = row_reference row ->
        forall id data ok,
          In (id, data, ok) (writes (events (process_row rt row t))) ->
          upd_reference data = None).
Proof.
  unfold active in Hactive. apply andb_prop in Hactive as [Hc Hw].
  apply negb_true_iff in Hc.
  destruct (process_row_writes rt row t Hc Hw) as (T & t1 & HT & _ & W).
  exists T. split; [exact HT|].
  destruct (updates_return rt row T).
  - destruct W as (u & t3 & Rr & _ & _ & _ & _ & W).
    rewrite after_keywords_reference in Rr. split.
    + intros N. apply eqb_neq in N. rewrite N in Rr.
      assert (U : update_nonempty u = true)
        by (unfold update_nonempty; rewrite Rr; reflexivity).
      rewrite U in W. eauto.
    + intros E id data ok H. rewrite W in H.
      destruct (update_nonempty u); [|destruct H].
      destruct H as [H|[]]. injection H as _ <- _.
      rewrite Rr. apply eqb_eq in E. now rewrite E.
  - split; [intros _; exact W|].
    intros _ id data ok H. destruct W as [_ W]. rewrite W in H. destruct H.
Qed.

(** The page of [row_sale] differs from its empty reference, and the update
    block returns on it. *)
Lemma reference_staged_when_changed_example :
  active Examples.healthy Examples.row_sale = true
  /\ outcome (get_text_from_url Examples.healthy
                (row_url Examples.row_sale) 0) = Ok (lit "big sale today.")
  /\ lit "big sale today." <> row_reference Examples.row_sale
  /\ updates_return Examples.healthy Examples.row_sale
       (lit "big sale today.") = true
  /\ exists T,
       outcome (get_text_from_url Examples.healthy
                  (row_url Examples.row_sale) 0) = Ok T
       /\ (T <> row_reference Examples.row_sale ->
           if updates_return Examples.healthy Examples.row_sale T
           then exists data ok,
                  writes (events (process_row Examples.healthy
                                    Examples.row_sale 0))
                  = [(row_id Examples.row_sale, data, ok)]
                  /\ upd_reference data = Some T
           else outcome (process_row Examples.healthy Examples.row_sale 0)
                = Raise RecursionError
                /\ writes (events (process_row Examples.healthy
                                     Examples.row_sale 0)) = [])
       /\ (T = row_reference Examples.row_sale ->
           forall id data ok,
             In (id, data, ok)
                (writes (events (process_row Examples.healthy
                                   Examples.row_sale 0))) ->
             upd_reference data = None).
Proof.
  split; [reflexivity|]. split; [reflexivity|]. split; [discriminate|].
  split; [reflexivity|].
  apply (reference_staged_when_changed Examples.healthy Examples.row_sale 0).
  reflexivity.
Defined.

(** ** Keywords found and keywords pending *)

Lemma startswith_iff (s prefix : pystr) :
  startswith s prefix = true <-> exists rest, s = prefix ++ rest.
Proof.
  split.
  - intros H. eexists. apply startswith_split, H.
  - intros (rest & ->). induction prefix as [|p prefix IH]; simpl;
      [now destruct rest|]. now rewrite N.eqb_refl, IH.
Qed.

(** [sub in s] holds exactly when [sub] is a contiguous part of [s]. *)
Lemma contains_iff (s sub : pystr) :
  contains s sub = true <-> exists before rest, s = before ++ sub ++ rest.
Proof.
  split.
  - induction s as [|c s IH]; cbn [contains]; intros H.
    + rewrite orb_false_r in H. apply startswith_iff in H as (rest & ->).
      now exists [], rest.
    + apply orb_prop in H as [H|H].
      * apply startswith_iff in H as (rest & ->). now exists [], rest.
      * destruct (IH H) as (before & rest & ->).
        now exists (c :: before), rest.
  - intros (before & rest & ->).
    induction before as [|c before IH].
    + assert (S : startswith (sub ++ rest) sub = true)
        by (apply startswith_iff; eauto).
      set (s0 := sub ++ rest) in *.
      destruct s0; cbn [app contains]; now rewrite S.
    + cbn [app contains]. rewrite IH. apply orb_true_r.
Qed.

Lemma mem_middle (x : pystr) (R l : list pystr) :
  mem x (R ++ x :: l) = true.
Proof.
  unfold mem. rewrite existsb_app. simpl. rewrite eqb_refl.
  apply orb_true_iff. right. reflexivity.
Qed.

Lemma remove_first_middle (x : pystr) (R l : list pystr) :
  Forall (fun y => y <> x) R -> remove_first x (R ++ x :: l) = R ++ l.
Proof.
  induction 1 as [|y R Hy _ IH]; simpl.
  - now rewrite eqb_refl.
  - apply eqb_neq in Hy. now rewrite Hy, IH.
Qed.

(** Removing, for each keyword found, its first occurrence from the list
    leaves the keywords that were not found, in order. *)
Lemma drop_found_all (p : pystr -> bool) (l : list pystr) :
  forall R,
    Forall (fun y => p y = false) R ->
    fold_left drop_found (filter p l) (R ++ l)
    = R ++ filter (fun y => negb (p y)) l.
Proof.
  induction l as [|x l IH]; intros R HR; simpl; [reflexivity|].
  destruct (p x) eqn:P; simpl.
  - unfold drop_found at 2. rewrite mem_middle, remove_first_middle.
    + apply IH, HR.
    + apply (Forall_impl _ (P := fun y => p y = false)); [|exact HR].
      intros y Py E. subst y. congruence.
  - replace (R ++ x :: l) with ((R ++ [x]) ++ l)
      by (now rewrite <- app_assoc).
    rewrite IH by (apply Forall_app; split; [exact HR|now constructor]).
    now rewrite <- app_assoc.
Qed.

Lemma remaining_after_absent rt row T :
  remaining_after rt row T
  = filter (absent T) (map (str_lower rt) (row_keywords row)).
Proof.
  unfold remaining_after, found_in.
  apply (drop_found_all (contains T) _ []). constructor.
Qed.

Lemma stamped_keywords rt (found : list pystr) :
  forall t, map keyword (stamped rt t found) = found.
Proof.
  induction found as [|kw found IH]; intros t; simpl; [reflexivity|].
  now rewrite IH.
Qed.

(** X12.  The keyword block splits the lower-cased keyword list in two: the
    pending list it stages holds, in order, the keywords that do not occur in
    the text, and the entries it appends to the found log are, in order, the
    keywords that do; a keyword occurs when it is a contiguous part of the
    text. *)
Theorem keywords_split_by_occurrence rt (row : Row) (T : pystr)
    (u : update_data) (t : nat) (Hkeywords : row_keywords row <> []) :
  let keyword_list := map (str_lower rt) (row_keywords row) in
  exists u' new_found,
    outcome (process_keywords rt row keyword_list T u t) = Ok u'
    /\ upd_keywords u' = Some (filter (absent T) keyword_list)
    /\ upd_foundKeyword u' = Some (row_foundKeyword row ++ new_found)
    /\ map keyword new_found = filter (contains T) keyword_list
    /\ (forall kw,
          In kw (map keyword new_found) <->
          In kw keyword_list
          /\ exists before rest, T = before ++ kw ++ rest).
Proof.
  intros keyword_list.
  assert (Hk : nonempty keyword_list = true).
  { unfold keyword_list. rewrite nonempty_map.
    destruct (row_keywords row); [contradiction|reflexivity]. }
  unfold keyword_list in *.
  rewrite (process_keywords_run rt row T u t Hk).
  exists (keywords_staged rt row T u t), (stamped rt t (found_in rt row T)).
  rewrite stamped_keywords.
  split; [reflexivity|]. split; [simpl; now rewrite remaining_after_absent|].
  split; [reflexivity|]. split; [reflexivity|].
  intros kw. unfold found_in. rewrite filter_In, contains_iff. reflexivity.
Qed.

Lemma keywords_split_by_occurrence_example :
  row_keywords Examples.row_launch <> []
  /\ filter (absent (lit "big sale today."))
            (map ascii_lower (row_keywords Examples.row_launch))
     = [lit "launch"]
  /\ filter (contains (lit "big sale today."))
            (map ascii_lower (row_keywords Examples.row_launch))
     = [lit "today"; lit "big"]
  /\ exists u' new_found,
       outcome (process_keywords Examples.healthy Examples.row_launch
                  (map ascii_lower (row_keywords Examples.row_launch))
                  (lit "big sale today.") empty_update 1) = Ok u'
       /\ upd_keywords u'
          = Some (filter (absent (lit "big sale today."))
                         (map ascii_lower (row_keywords Examples.row_launch)))
       /\ upd_foundKeyword u'
          = Some (row_foundKeyword Examples.row_launch ++ new_found)
       /\ map keyword new_found
          = filter (contains (lit "big sale today."))
                   (map ascii_lower (row_keywords Examples.row_launch))
       /\ (forall kw,
             In kw (map keyword new_found) <->
             In kw (map ascii_lower (row_keywords Examples.row_launch))
             /\ exists before rest,
                  lit "big sale today." = before ++ kw ++ rest).
Proof.
  split; [discriminate|]. split; [reflexivity|]. split; [reflexivity|].
  apply (keywords_split_by_occurrence Examples.healthy Examples.row_launch
           (lit "big sale today.") empty_update 1).
  discriminate.
Defined.

(** ** What a cycle writes *)

(** The proposal a row writes: the one left by the update block, run on the
    proposal left by the keyword block. *)
Lemma process_row_final rt row t T :
  active rt row = true ->
  outcome (get_text_from_url rt (row_url row) t) = Ok T ->
  updates_return rt row T = true ->
  exists t2 u2 t3 e1 e2 e3,
    events (get_text_from_url rt (row_url row) t) = e1
    /\ events (process_keywords rt row
                 (map (str_lower rt) (row_keywords row)) T
                 (initial_update row T) (S t)) = e2
    /\ process_updates rt row T (after_keywords rt row T (S t)) t2
       = (Ok u2, t3, e3)
    /\ writes (events (process_row rt row t))
       = (if update_nonempty u2
          then [(row_id row, u2, execute_update rt t3 (row_id row) u2)]
          else [])
    /\ posted (events (process_row rt row t)) = posted e2 ++ posted e3
    /\ (outcome (process_row rt row t) = Ok tt
        \/ failed_writes (events (process_row rt row t)) = [row_id row]).
Proof.
  intros A HT Hr.
  destruct (process_row_trace rt row t A)
    as (T' & e1 & u1 & t2 & e2 & r3 & t3 & e3 & E1 & E2 & E3 & R).
  rewrite E1 in HT. injection HT as ->.
  destruct r3 as [u2|e]; [destruct R as [_ R]|destruct R as (_ & R & _)];
    [|congruence].
  destruct (process_keywords_returns rt row T (initial_update row T) (S t))
    as (u1' & [H1 _] & D1).
  rewrite E2 in H1. unfold outcome in H1; simpl in H1. injection H1 as <-.
  fold (after_keywords rt row T (S t)) in D1. subst u1.
  destruct (get_text_prints rt (row_url row) t) as (P1 & _ & W1 & _).
  rewrite E1 in P1, W1. unfold events in P1, W1. cbn [snd] in P1, W1.
  pose proof (process_keywords_talks rt row T (initial_update row T) (S t))
    as K2.
  rewrite E2 in K2. unfold events in K2. cbn [snd] in K2.
  pose proof (process_updates_talks rt row T (after_keywords rt row T (S t))
                t2) as K3.
  rewrite E3 in K3. unfold events in K3. cbn [snd] in K3.
  assert (W : writes (e1 ++ e2 ++ e3) = [])
    by (rewrite !writes_app, W1, (writes_quiet _ (talk_not_update _ K2)),
          (writes_quiet _ (talk_not_update _ K3)); reflexivity).
  assert (F : failed_writes (e1 ++ e2 ++ e3) = []).
  { apply failed_writes_quiet. apply Forall_app; split.
    - destruct (get_text_run rt (row_url row) t) as (T' & evs & G & Q & _).
      rewrite E1 in G. injection G as _ ->. exact Q.
    - apply Forall_app; split; apply talk_not_update; assumption. }
  assert (P : posted (e1 ++ e2 ++ e3) = posted e2 ++ posted e3)
    by (rewrite !posted_app', P1; reflexivity).
  exists t2, u2, t3, e1, e2, e3.
  rewrite E1, E2, R.
  split; [reflexivity|]. split; [reflexivity|].
  split; [exact E3|].
  destruct (update_nonempty u2);
    [destruct (execute_update rt t3 (row_id row) u2)|];
    unfold events, outcome; cbn [fst snd];
    [rewrite writes_app, posted_app', failed_writes_app, W, P, F
    |rewrite writes_app, posted_app', failed_writes_app, W, P, F
    |rewrite W, P];
    simpl; rewrite ?app_nil_r; repeat split; auto.
Qed.

Lemma failed_writes_of_writes evs :
  failed_writes evs
  = map (fun w => fst (fst w)) (filter (fun w => negb (snd w)) (writes evs)).
Proof.
  induction evs as [|e evs IH]; simpl; [reflexivity|].
  destruct e as [| | |id data [|]| | | |]; simpl; now rewrite IH.
Qed.

Lemma updates_return_empty rt row : updates_return rt row [] = true.
Proof.
  unfold updates_return, diff_returns.
  change (split_sentences []) with (@nil pystr).
  rewrite combine_nil. apply orb_true_r.
Qed.

Lemma updates_return_same rt row :
  updates_return rt row (row_reference row) = true.
Proof.
  unfold updates_return, diff_needed.
  now rewrite eqb_refl, !andb_false_r.
Qed.

Lemma get_diff_empty_new rt (old_text : pystr) (t : nat) :
  get_diff rt old_text [] t = (Ok [], t, []).
Proof.
  unfold get_diff. apply compare_sentences_equal_pairs.
  apply (combine_prefix_r [] (split_sentences old_text)).
Qed.

(** X2.  A failed fetch counts as an empty page.  For a row that is not
    skipped and has a non-empty reference, the cycle then writes the empty
    string as the new reference; with [checkUpdates] and a reference that is
    not blank it also stages [isUpdated = True], while the log it stages is
    the stored one: the empty text has no sentences, so no change is
    recorded. *)
Theorem failed_fetch_clears_reference rt (row : Row) (t : nat)
    (Hactive : active rt row = true)
    (Hfailed : forall text, selenium rt t (row_url row) <> BodyText text)
    (Hreference : row_reference row <> []) :
  exists data ok,
    writes (events (process_row rt row t)) = [(row_id row, data, ok)]
    /\ upd_reference data = Some []
    /\ (row_checkUpdates row = true ->
        strip (row_reference row) <> [] ->
        upd_isUpdated data = Some true
        /\ upd_Updates data = Some (row_Updates row)).
Proof.
  assert (HT : outcome (get_text_from_url rt (row_url row) t) = Ok []).
  { destruct (get_text_run rt (row_url row) t)
      as (T' & evs & G & _ & [->|(text & S & _)]).
    - now rewrite G.
    - destruct (Hfailed text S). }
  destruct (process_row_final rt row t [] Hactive HT
              (updates_return_empty rt row))
    as (t2 & u2 & t3 & e1 & e2 & e3 & _ & _ & E3 & W & _).
  assert (N : PyStr.eqb [] (row_reference row) = false)
    by (apply eqb_neq; congruence).
  pose proof (after_keywords_reference rt row [] (S t)) as Rr.
  rewrite N in Rr.
  destruct (process_updates_returns rt row []
              (after_keywords rt row [] (S t)) t2
              (updates_return_empty rt row))
    as (u' & [H2 _] & R1 & _).
  rewrite E3 in H2. unfold outcome in H2; simpl in H2. injection H2 as <-.
  rewrite Rr in R1.
  assert (U : update_nonempty u2 = true)
    by (unfold update_nonempty; rewrite R1; reflexivity).
  rewrite U in W.
  exists u2, (execute_update rt t3 (row_id row) u2).
  split; [exact W|]. split; [exact R1|].
  intros Hcheck Hstrip.
  assert (D : diff_needed row [] = true).
  { unfold diff_needed. rewrite Hcheck, N.
    destruct (strip (row_reference row)); [contradiction|reflexivity]. }
  assert (Hr : diff_returns rt (row_reference row) [] = true).
  { pose proof (updates_return_empty rt row) as Hr.
    unfold updates_return in Hr. now rewrite D in Hr. }
  destruct (process_updates_diff rt row []
              (after_keywords rt row [] (S t)) t2 D Hr)
    as (l & t1 & G & E).
  rewrite get_diff_empty_new in G. injection G as <- _.
  rewrite E in E3. injection E3 as <- _ _.
  simpl. rewrite app_nil_r. split; reflexivity.
Qed.

Lemma failed_fetch_clears_reference_example :
  active Scenarios.unreachable Examples.row_quiet = true
  /\ row_reference Examples.row_quiet <> []
  /\ exists data ok,
       writes (events (process_row Scenarios.unreachable
                         Examples.row_quiet 0))
       = [(row_id Examples.row_quiet, data, ok)]
       /\ upd_reference data = Some []
       /\ (row_checkUpdates Examples.row_quiet = true ->
           strip (row_reference Examples.row_quiet) <> [] ->
           upd_isUpdated data = Some true
           /\ upd_Updates data = Some (row_Updates Examples.row_quiet)).
Proof.
  split; [reflexivity|]. split; [discriminate|].
  apply (failed_fetch_clears_reference Scenarios.unreachable
           Examples.row_quiet 0);
    [reflexivity|intros text; discriminate|discriminate].
Defined.

(** X11.  When the fetched text equals the stored reference and the row has
    no keywords, the cycle writes nothing to the store, posts nothing and
    returns normally. *)
Theorem unchanged_page_no_write rt (row : Row) (t : nat)
    (Hactive : active rt row = true)
    (Hnone : row_keywords row = [])
    (Hsame : outcome (get_text_from_url rt (row_url row) t)
             = Ok (row_reference row)) :
  writes (events (process_row rt row t)) = []
  /\ posted (events (process_row rt row t)) = []
  /\ outcome (process_row rt row t) = Ok tt.
Proof.
  destruct (process_row_final rt row t (row_reference row) Hactive Hsame
              (updates_return_same rt row))
    as (t2 & u2 & t3 & e1 & e2 & e3 & _ & E2 & E3 & W & P & O).
  assert (D : diff_needed row (row_reference row) = false)
    by (unfold diff_needed; rewrite eqb_refl, !andb_false_r; reflexivity).
  assert (A : after_keywords rt row (row_reference row) (S t) = empty_update).
  { unfold after_keywords, initial_update.
    rewrite Hnone, eqb_refl. reflexivity. }
  rewrite (process_updates_idle rt row _ _ _ D), A in E3.
  injection E3 as <- _ <-.
  unfold process_keywords in E2. rewrite Hnone in E2. simpl in E2. subst e2.
  simpl in W. rewrite W. rewrite P.
  split; [reflexivity|]. split.
  - destruct (row_checkUpdates row); reflexivity.
  - destruct O as [O|O]; [exact O|].
    rewrite failed_writes_of_writes, W in O. discriminate.
Qed.

Lemma unchanged_page_no_write_example :
  active Examples.healthy Scenarios.row_watch = true
  /\ row_keywords Scenarios.row_watch = []
  /\ outcome (get_text_from_url Examples.healthy
                (row_url Scenarios.row_watch) 0)
     = Ok (row_reference Scenarios.row_watch)
  /\ writes (events (process_row Examples.healthy Scenarios.row_watch 0)) = []
  /\ posted (events (process_row Examples.healthy Scenarios.row_watch 0)) = []
  /\ outcome (process_row Examples.healthy Scenarios.row_watch 0) = Ok tt.
Proof.
  split; [reflexivity|]. split; [reflexivity|]. split; [reflexivity|].
  apply (unchanged_page_no_write Examples.healthy Scenarios.row_watch 0);
    reflexivity.
Defined.

Lemma filter_absent_none (f : pystr -> pystr) (T : pystr) (K : list pystr) :
  Forall (fun k => contains T (f k) = true) K ->
  filter (absent T) (map f K) = [].
Proof.
  induction 1 as [|k K Hk _ IH]; simpl; [reflexivity|].
  unfold absent at 1. now rewrite Hk.
Qed.

Lemma filter_absent_some (f : pystr -> pystr) (T : pystr) (K : list pystr) :
  Exists (fun k => contains T (f k) = false) K ->
  nonempty (filter (absent T) (map f K)) = true.
Proof.
  induction 1 as [k K Hk|k K _ IH]; simpl; unfold absent at 1.
  - now rewrite Hk.
  - destruct (contains T (f k)); [exact IH|reflexivity].
Qed.

(** X13.  For a row that is not completed, has keywords and has
    [shouldContinueCheck] false: when every keyword, lower-cased, occurs in
    the fetched text, the cycle makes one write that stages
    [completed = True] and an empty pending list, unless the differ raises
    in the update block, and then the row raises and writes nothing; when
    some keyword does not occur, no write stages [completed]. *)
Theorem all_found_marks_completed rt (row : Row) (t : nat)
    (Hopen : row_completed row = false)
    (Hkeywords : row_keywords row <> [])
    (Hstop : row_shouldContinueCheck row = false) :
  exists T,
    outcome (get_text_from_url rt (row_url row) t) = Ok T
    /\ (Forall (fun k => contains T (str_lower rt k) = true)
               (row_keywords row) ->
        if updates_return rt row T
        then exists data ok,
               writes (events (process_row rt row t))
               = [(row_id row, data, ok)]
               /\ upd_completed data = Some true
               /\ upd_keywords data = Some []
        else outcome (process_row rt row t) = Raise RecursionError
             /\ writes (events (process_row rt row t)) = [])
    /\ (Exists (fun k => contains T (str_lower rt k) = false)
               (row_keywords row) ->
        forall id data ok,
          In (id, data, ok) (writes (events (process_row rt row t))) ->
          upd_completed data = None).
Proof.
  assert (Hk : nonempty (map (str_lower rt) (row_keywords row)) = true).
  { rewrite nonempty_map. destruct (row_keywords row); [contradiction|].
    reflexivity. }
  assert (Hw : has_work rt row = true) by (unfold has_work; now rewrite Hk).
  destruct (process_row_writes rt row t Hopen Hw) as (T & t1 & HT & _ & W).
  exists T. split; [exact HT|].
  destruct (updates_return rt row T).
  2:{ split; [intros _; exact W|].
      intros _ id data ok H. destruct W as [_ W]. rewrite W in H.
      destruct H. }
  destruct W as (u & t3 & _ & Rk & _ & Rc & _ & W).
  unfold after_keywords in Rk, Rc. rewrite Hk in Rk, Rc.
  unfold keywords_staged, all_found_and_stop in Rk, Rc. simpl in Rk, Rc.
  rewrite remaining_after_absent, Hstop in *.
  destruct (initial_update_fields row T) as (_ & _ & Hi & _).
  split.
  - intros Hall. rewrite (filter_absent_none _ _ _ Hall) in Rk, Rc.
    simpl in Rc.
    assert (U : update_nonempty u = true)
      by (unfold update_nonempty; rewrite Rk; simpl; now rewrite orb_true_r).
    rewrite U in W. eauto.
  - intros Hsome id data ok H.
    rewrite (filter_absent_some _ _ _ Hsome) in Rc. simpl in Rc.
    rewrite W in H. destruct (update_nonempty u); [|destruct H].
    destruct H as [H|[]]. injection H as _ <- _. now rewrite Rc.
Qed.

(** The keyword of [row_sale] is on the page, and the row has no reference
    to compare with. *)
Lemma all_found_marks_completed_example :
  row_completed Examples.row_sale = false
  /\ row_keywords Examples.row_sale <> []
  /\ row_shouldContinueCheck Examples.row_sale = false
  /\ Forall (fun k => contains (lit "big sale today.") (ascii_lower k) = true)
            (row_keywords Examples.row_sale)
  /\ updates_return Examples.healthy Examples.row_sale
       (lit "big sale today.") = true
  /\ exists T,
       outcome (get_text_from_url Examples.healthy
                  (row_url Examples.row_sale) 0) = Ok T
       /\ (Forall (fun k => contains T (ascii_lower k) = true)
                  (row_keywords Examples.row_sale) ->
           if updates_return Examples.healthy Examples.row_sale T
           then exists data ok,
                  writes (events (process_row Examples.healthy
                                    Examples.row_sale 0))
                  = [(row_id Examples.row_sale, data, ok)]
                  /\ upd_completed data = Some true
                  /\ upd_keywords data = Some []
           else outcome (process_row Examples.healthy Examples.row_sale 0)
                = Raise RecursionError
                /\ writes (events (process_row Examples.healthy
                                     Examples.row_sale 0)) = [])
       /\ (Exists (fun k => contains T (ascii_lower k) = false)
                  (row_keywords Examples.row_sale) ->
           forall id data ok,
             In (id, data, ok)
                (writes (events (process_row Examples.healthy
                                   Examples.row_sale 0))) ->
             upd_completed data = None).
Proof.
  split; [reflexivity|]. split; [discriminate|]. split; [reflexivity|].
  split; [repeat constructor|]. split; [reflexivity|].
  apply (all_found_marks_completed Examples.healthy Examples.row_sale 0);
    [reflexivity|discriminate|reflexivity].
Defined.

(** ** The update notification *)

Lemma posted_update_notification rt row updates_log text_diffs t m :
  In m (posted (events (update_notification rt row updates_log
                          text_diffs t))) ->
  m = if row_shouldSendDetailedUpdates row
      then format_updates_message rt (row_url row) updates_log text_diffs
      else short_update_message (row_url row) (now rt t).
Proof.
  unfold update_notification.
  destruct (truthy (row_telegramID row)); [|intros []].
  destruct (row_shouldSendDetailedUpdates row).
  - rewrite (bind_silent _ _ _ _ _ eq_refl). apply posted_send.
  - unfold bind at 1, strftime_now. unfold bind, ret.
    match goal with
    | |- context [send_telegram_notification ?r ?c ?msg ?u ?s] =>
        pose proof (posted_send r c msg u s m) as H;
        destruct (send_telegram_notification r c msg u s) as [[o t1] e1]
    end.
    exact H.
Qed.

(** X18.  When the update block compares (checkUpdates, a reference that is
    not blank, a different text) and the differ returns, the block always
    stages [isUpdated = True] and the log extended by the changes of
    [get_diff], also when there are none; a message it posts is the detailed
    message formatted from that extended log and the new changes, or else
    the short notice stamped after the comparison.  When the differ raises,
    the block raises [RecursionError] after its first console line: it
    stages and posts nothing. *)
Theorem update_block_stages_and_notifies rt (row : Row) (T : pystr)
    (u : update_data) (t : nat)
    (Hcheck : row_checkUpdates row = true)
    (Hbaseline : strip (row_reference row) <> [])
    (Hchanged : T <> row_reference row) :
  if diff_returns rt (row_reference row) T
  then exists text_diffs t1 u',
         get_diff rt (row_reference row) T t = (Ok text_diffs, t1, [])
         /\ outcome (process_updates rt row T u t) = Ok u'
         /\ upd_isUpdated u' = Some true
         /\ upd_Updates u' = Some (row_Updates row ++ text_diffs)
         /\ (forall m,
               In m (posted (events (process_updates rt row T u t))) ->
               m = if row_shouldSendDetailedUpdates row
                   then format_updates_message rt (row_url row)
                          (row_Updates row ++ text_diffs) text_diffs
                   else short_update_message (row_url row) (now rt t1))
  else exists t1,
         get_diff rt (row_reference row) T t
         = (Raise RecursionError, t1, [])
         /\ process_updates rt row T u t
            = (Raise RecursionError, t1, [Print LogChangeDetected]).
Proof.
  assert (D : diff_needed row T = true).
  { unfold diff_needed. rewrite Hcheck.
    apply eqb_neq in Hchanged. rewrite Hchanged.
    destruct (strip (row_reference row)); [contradiction|reflexivity]. }
  destruct (diff_returns rt (row_reference row) T) eqn:Hr.
  2:{ apply process_updates_raise. unfold updates_return.
      now rewrite D, Hr. }
  destruct (process_updates_diff rt row T u t D Hr) as (l & t1 & G & E).
  exists l, t1, (updates_staged row u l). rewrite E.
  split; [exact G|]. split; [reflexivity|]. split; [reflexivity|].
  split; [reflexivity|].
  intros m H. unfold events at 1 in H. cbn [snd] in H.
  change (Print LogChangeDetected :: ?x)
    with ([Print LogChangeDetected] ++ x) in H.
  rewrite !posted_app in H. simpl in H.
  replace (posted (if nonempty l then [Print (LogUpdates l)] else []))
    with (@nil pystr) in H by (destruct (nonempty l); reflexivity).
  simpl in H. apply posted_update_notification in H. exact H.
Qed.

(** The page of [Scenarios.row_watch] changes in one word, and the differ
    returns on it. *)
Lemma update_block_stages_and_notifies_example :
  row_checkUpdates Scenarios.row_watch = true
  /\ strip (row_reference Scenarios.row_watch) <> []
  /\ lit "big sale tomorrow." <> row_reference Scenarios.row_watch
  /\ diff_returns Examples.healthy (row_reference Scenarios.row_watch)
       (lit "big sale tomorrow.") = true
  /\ if diff_returns Examples.healthy (row_reference Scenarios.row_watch)
          (lit "big sale tomorrow.")
     then exists text_diffs t1 u',
            get_diff Examples.healthy (row_reference Scenarios.row_watch)
              (lit "big sale tomorrow.") 3 = (Ok text_diffs, t1, [])
            /\ outcome (process_updates Examples.healthy Scenarios.row_watch
                          (lit "big sale tomorrow.") empty_update 3) = Ok u'
            /\ upd_isUpdated u' = Some true
            /\ upd_Updates u'
               = Some (row_Updates Scenarios.row_watch ++ text_diffs)
            /\ (forall m,
                  In m (posted (events (process_updates Examples.healthy
                                          Scenarios.row_watch
                                          (lit "big sale tomorrow.")
                                          empty_update 3))) ->
                  m = if row_shouldSendDetailedUpdates Scenarios.row_watch
                      then format_updates_message Examples.healthy
                             (row_url Scenarios.row_watch)
                             (row_Updates Scenarios.row_watch ++ text_diffs)
                             text_diffs
                      else short_update_message (row_url Scenarios.row_watch)
                             (now Examples.healthy t1))
     else exists t1,
            get_diff Examples.healthy (row_reference Scenarios.row_watch)
              (lit "big sale tomorrow.") 3
            = (Raise RecursionError, t1, [])
            /\ process_updates Examples.healthy Scenarios.row_watch
                 (lit "big sale tomorrow.") empty_update 3
               = (Raise RecursionError, t1, [Print LogChangeDetected]).
Proof.
  split; [reflexivity|]. split; [discriminate|]. split; [discriminate|].
  split; [vm_compute; reflexivity|].
  apply (update_block_stages_and_notifies Examples.healthy
           Scenarios.row_watch (lit "big sale tomorrow.") empty_update 3);
    [reflexivity|discriminate|discriminate].
Defined.

(** ** The whole cycle *)

(** X14.  [main] never raises.  When the listing of the rows raises, or the
    table is empty, it prints one line about it and ends: no page is opened,
    nothing is posted or written, and there is no pause. *)
Theorem main_never_raises rt (t : nat) :
  outcome (main rt t) = Ok tt
  /\ (execute_select rt t = None ->
      events (main rt t)
      = [Print LogFetchingRows; Select; Print LogErrorFetchingData])
  /\ (execute_select rt t = Some [] ->
      events (main rt t) = [Print LogFetchingRows; Select; Print LogNoData]).
Proof.
  unfold main.
  match goal with |- context [try_except ?b _] => set (body := b) end.
  split; [|split].
  - unfold bind, print, emit, try_except.
    destruct (body t) as [[[[]|e] t1] e1]; reflexivity.
  - intros H. subst body.
    unfold bind, print, emit, try_except, supabase_select. rewrite H.
    reflexivity.
  - intros H. subst body.
    unfold bind, print, emit, try_except, supabase_select. rewrite H.
    reflexivity.
Qed.

Lemma main_never_raises_example :
  execute_select Scenarios.no_listing 0 = None
  /\ events (main Scenarios.no_listing 0)
     = [Print LogFetchingRows; Select; Print LogErrorFetchingData]
  /\ execute_select Scenarios.empty_table 0 = Some []
  /\ events (main Scenarios.empty_table 0)
     = [Print LogFetchingRows; Select; Print LogNoData].
Proof.
  split; [reflexivity|].
  split; [apply (proj1 (proj2 (main_never_raises Scenarios.no_listing 0)));
          reflexivity|].
  split; [reflexivity|].
  apply (proj2 (proj2 (main_never_raises Scenarios.empty_table 0))).
  reflexivity.
Defined.

(** With a store whose writes go through, a row returns normally; it opens
    its page exactly when it is active. *)
Lemma process_row_healthy rt row t :
  (forall t' id data, execute_update rt t' id data = true) ->
  (forall T,
     outcome (get_text_from_url rt (row_url row) t) = Ok T ->
     updates_return rt row T = true) ->
  selenium rt t (row_url row) <> DriverFailed ->
  outcome (process_row rt row t) = Ok tt
  /\ browsed (events (process_row rt row t))
     = (if active rt row then [row_url row] else [])
  /\ Forall (eq 2) (pauses (events (process_row rt row t)))
  /\ failed_writes (events (process_row rt row t)) = [].
Proof.
  intros Hstore Hdiffer Hdriver.
  destruct (active rt row) eqn:A.
  - destruct (process_row_trace rt row t A)
      as (T & e1 & u1 & t2 & e2 & r3 & t3 & e3 & E1 & E2 & E3 & R).
    assert (Hr : updates_return rt row T = true)
      by (apply Hdiffer; now rewrite E1).
    destruct r3 as [u2|e]; [destruct R as [_ R]|destruct R as (_ & R & _)];
      [|congruence].
    destruct (get_text_prints rt (row_url row) t) as (_ & B1 & W1 & S1 & _).
    rewrite E1 in B1, W1, S1. unfold events in B1, W1, S1.
    cbn [snd] in B1, W1, S1.
    pose proof (process_keywords_talks rt row T (initial_update row T)
                  (S t)) as K2.
    rewrite E2 in K2. unfold events in K2; cbn [snd] in K2.
    pose proof (process_updates_talks rt row T u1 t2) as K3.
    rewrite E3 in K3. unfold events in K3; cbn [snd] in K3.
    assert (B : browsed (e1 ++ e2 ++ e3) = [row_url row]).
    { rewrite !browsed_app, B1, (talk_browsed _ K2), (talk_browsed _ K3).
      destruct (selenium rt t (row_url row)); [contradiction| | |];
        reflexivity. }
    assert (P : Forall (eq 2) (pauses (e1 ++ e2 ++ e3))).
    { rewrite !pauses_app, S1, (talk_pauses _ K2), (talk_pauses _ K3).
      destruct (selenium rt t (row_url row)); repeat constructor. }
    assert (W : writes (e1 ++ e2 ++ e3) = [])
      by (rewrite !writes_app, W1,
            (writes_quiet _ (talk_not_update _ K2)),
            (writes_quiet _ (talk_not_update _ K3)); reflexivity).
    assert (F : failed_writes (e1 ++ e2 ++ e3) = [])
      by (rewrite failed_writes_of_writes, W; reflexivity).
    rewrite R, Hstore.
    destruct (update_nonempty u2); unfold outcome, events; cbn [fst snd];
      [rewrite browsed_app, pauses_app, failed_writes_app, B, F
      |rewrite B, F];
      simpl; rewrite ?app_nil_r; repeat split; assumption.
  - destruct (process_row_inactive rt row t A) as (line & ->).
    repeat split. constructor.
Qed.

Lemma fetch_pauses_only (l : list nat) :
  Forall (eq 2) l ->
  filter (Nat.eqb 1) l = [] /\ Forall (fun n => n = 1 \/ n = 2) l.
Proof.
  induction 1 as [|n l <- _ [IH1 IH2]]; simpl; [split; constructor|].
  split; [exact IH1|]. constructor; [now right|exact IH2].
Qed.

Lemma process_rows_healthy rt (n : nat) (rows : list Row) :
  (forall t' id data, execute_update rt t' id data = true) ->
  (forall row t' T,
     In row rows ->
     outcome (get_text_from_url rt (row_url row) t') = Ok T ->
     updates_return rt row T = true) ->
  (forall t' url, selenium rt t' url <> DriverFailed) ->
  forall i t,
    outcome (process_rows rt i n rows t) = Ok tt
    /\ browsed (events (process_rows rt i n rows t))
       = map row_url (filter (active rt) rows)
    /\ filter (Nat.eqb 1) (pauses (events (process_rows rt i n rows t)))
       = repeat 1 (length rows)
    /\ Forall (fun n => n = 1 \/ n = 2)
              (pauses (events (process_rows rt i n rows t)))
    /\ failed_writes (events (process_rows rt i n rows t)) = [].
Proof.
  intros Hstore Hdiffer Hdriver.
  induction rows as [|row rows IH]; intros i t; cbn [process_rows].
  - repeat split. constructor.
  - destruct (process_row_healthy rt row t Hstore
                (fun T => Hdiffer row t T (or_introl eq_refl))
                (Hdriver t (row_url row))) as (O & B & P & F).
    destruct (fetch_pauses_only _ P) as [P1 P12].
    destruct (process_row rt row t) as [[r t1] e1] eqn:E.
    unfold outcome, events in O, B, P1, P12, F.
    cbn [fst snd] in O, B, P1, P12, F.
    subst r.
    destruct (IH (fun row' t' T H => Hdiffer row' t' T (or_intror H))
                 (S i) t1) as (O2 & B2 & Q1 & Q12 & F2).
    destruct (process_rows rt (S i) n rows t1) as [[r2 t2] e2] eqn:E2.
    unfold outcome, events in O2, B2, Q1, Q12, F2.
    cbn [fst snd] in O2, B2, Q1, Q12, F2. subst r2.
    assert (R : (print (LogProcessingRow i n (row_url row));;
                 process_row rt row;; emit (Sleep 1);;
                 process_rows rt (S i) n rows) t
                = (Ok tt, t2,
                   [Print (LogProcessingRow i n (row_url row))]
                     ++ e1 ++ [Sleep 1] ++ e2)).
    { unfold bind, print, emit. rewrite E. cbn beta iota. rewrite E2.
      reflexivity. }
    rewrite R. unfold outcome, events. cbn [fst snd].
    rewrite !browsed_app, !pauses_app, !failed_writes_app, B, F, B2, F2.
    rewrite !filter_app, P1, Q1.
    cbn [filter]. split; [reflexivity|]. split.
    { destruct (active rt row); reflexivity. }
    split; [reflexivity|]. split; [|reflexivity].
    cbn [pauses flat_map app].
    apply Forall_app; split; [exact P12|].
    constructor; [now left|exact Q12].
Qed.

(** X15.  With a store whose writes go through, a browser that starts and a
    differ that returns on the texts of the listed rows, a cycle handles
    every row of the listing, in the order of the listing: the pages opened
    are those of the rows that are neither completed nor without work, there
    is one pause of one second per row, every other pause is one of the two
    seconds of a fetch, no write fails, and [main] ends without its error
    line. *)
Theorem healthy_cycle_covers_every_row rt (t : nat) (rows : list Row)
    (Hstore : forall t' id data, execute_update rt t' id data = true)
    (Hdiffer : forall row t' T,
                 In row rows ->
                 outcome (get_text_from_url rt (row_url row) t') = Ok T ->
                 updates_return rt row T = true)
    (Hdriver : forall t' url, selenium rt t' url <> DriverFailed)
    (Hselect : execute_select rt t = Some rows) :
  outcome (main rt t) = Ok tt
  /\ browsed (events (main rt t)) = map row_url (filter (active rt) rows)
  /\ filter (Nat.eqb 1) (pauses (events (main rt t)))
     = repeat 1 (length rows)
  /\ Forall (fun n => n = 1 \/ n = 2) (pauses (events (main rt t)))
  /\ failed_writes (events (main rt t)) = []
  /\ events (main rt t)
     = Print LogFetchingRows :: Select
         :: (if nonempty rows
             then Print (LogFoundRows (length rows))
                    :: events (process_rows rt 1 (length rows) rows (S t))
             else [Print LogNoData]).
Proof.
  destruct (process_rows_healthy rt (length rows) rows Hstore Hdiffer Hdriver
              1 (S t)) as (O & B & P & Q & F).
  assert (E : main rt t
              = (Ok tt,
                 (if nonempty rows
                  then steps (process_rows rt 1 (length rows) rows (S t))
                  else S t),
                 Print LogFetchingRows :: Select
                   :: (if nonempty rows
                       then Print (LogFoundRows (length rows))
                              :: events (process_rows rt 1 (length rows) rows
                                           (S t))
                       else [Print LogNoData]))).
  { unfold main. unfold bind at 1, print, emit. unfold try_except.
    unfold bind at 1, supabase_select. rewrite Hselect.
    destruct rows as [|row rows]; [reflexivity|].
    cbn [nonempty]. unfold bind at 1.
    destruct (process_rows rt 1 (length (row :: rows)) (row :: rows) (S t))
      as [[r t1] e1].
    unfold outcome in O; cbn [fst] in O. subst r. reflexivity. }
  rewrite E. unfold outcome, events. cbn [fst snd].
  split; [reflexivity|].
  destruct rows as [|row rows]; [repeat split; constructor|].
  cbn [nonempty].
  split; [exact B|]. split; [exact P|]. split; [exact Q|].
  split; [exact F|reflexivity].
Qed.

(** Three rows, the second one completed: two pages, three pauses between
    the rows and the two pauses of the fetches. *)
Lemma healthy_cycle_covers_every_row_example :
  execute_select Scenarios.mixed_table 0
  = Some [Examples.row_sale; Examples.row_done; Examples.row_launch]
  /\ browsed (events (main Scenarios.mixed_table 0))
     = [lit "https://a.example"; lit "https://b.example"]
  /\ pauses (events (main Scenarios.mixed_table 0)) = [2; 1; 1; 2; 1]
  /\ filter (Nat.eqb 1) (pauses (events (main Scenarios.mixed_table 0)))
     = [1; 1; 1].
Proof.
  assert (Hdiffer : forall row t' T,
             In row [Examples.row_sale; Examples.row_done;
                     Examples.row_launch] ->
             outcome (get_text_from_url Scenarios.mixed_table (row_url row)
                        t') = Ok T ->
             updates_return Scenarios.mixed_table row T = true).
  { intros row t' T H HT.
    vm_compute in HT. injection HT as <-.
    destruct H as [<-|[<-|[<-|[]]]]; vm_compute; reflexivity. }
  destruct (healthy_cycle_covers_every_row Scenarios.mixed_table 0
              [Examples.row_sale; Examples.row_done; Examples.row_launch]
              (fun _ _ _ => eq_refl) Hdiffer
              (fun _ _ H => eq_ind (BodyText (lit "Big SALE today."))
                              (fun f => match f with
                                        | DriverFailed => False
                                        | _ => True
                                        end) I DriverFailed H)
              eq_refl) as (_ & B & P & _).
  split; [reflexivity|]. split; [exact B|].
  split; [vm_compute; reflexivity|exact P].
Defined.

(** X20.  A [RecursionError] of the differ ends the cycle as a failed store
    write does: it leaves [process_row] and the loop over the rows, the
    handler of [main] prints its line and [main] returns.  The row on which
    the differ raised is not written, and the rows behind it are not
    processed in this cycle. *)
Theorem recursion_error_ends_cycle rt (t : nat) (rows1 : list Row)
    (row : Row) (rows2 : list Row) (t1 : nat) (ev1 : list event)
    (Hselect : execute_select rt t = Some (rows1 ++ row :: rows2))
    (Hbefore : process_rows rt 1 (length (rows1 ++ row :: rows2)) rows1 (S t)
               = (Ok tt, t1, ev1))
    (Hraise : outcome (process_row rt row t1) = Raise RecursionError) :
  main rt t =
    (Ok tt, steps (process_row rt row t1),
     [Print LogFetchingRows; Select;
      Print (LogFoundRows (length (rows1 ++ row :: rows2)))]
     ++ ev1
     ++ Print (LogProcessingRow (S (length rows1))
                 (length (rows1 ++ row :: rows2)) (row_url row))
     :: events (process_row rt row t1)
     ++ [Print LogErrorFetchingData])
  /\ writes (events (process_row rt row t1)) = [].
Proof.
  assert (E : process_row rt row t1
              = (Raise RecursionError, steps (process_row rt row t1),
                 events (process_row rt row t1))).
  { rewrite (run_eta (process_row rt row t1)) at 1. now rewrite Hraise. }
  split.
  - pose proof (process_rows_raise rt _ row rows2 _ _ _ rows1 1 (S t) t1 ev1
                  Hbefore E) as Hloop.
    unfold main. unfold bind at 1, print, emit.
    unfold try_except. unfold bind at 1, supabase_select. rewrite Hselect.
    replace (nonempty (rows1 ++ row :: rows2)) with true
      by (destruct rows1; reflexivity).
    unfold bind at 1. rewrite Hloop. simpl.
    rewrite <- !app_assoc. reflexivity.
  - destruct (process_row_raise rt row t1 _ _ _ E) as [[K _]|[_ Q]];
      [discriminate|].
    apply writes_quiet, Q.
Qed.

(** The differ raises on the first of the two rows of
    [Scenarios.deep_page]. *)
Lemma recursion_error_ends_cycle_example :
  outcome (process_row Scenarios.deep_page Scenarios.row_deep 1)
  = Raise RecursionError
  /\ main Scenarios.deep_page 0 =
       (Ok tt, steps (process_row Scenarios.deep_page Scenarios.row_deep 1),
        [Print LogFetchingRows; Select; Print (LogFoundRows 2)]
        ++ []
        ++ Print (LogProcessingRow 1 2 (row_url Scenarios.row_deep))
        :: events (process_row Scenarios.deep_page Scenarios.row_deep 1)
        ++ [Print LogErrorFetchingData])
  /\ writes (events (process_row Scenarios.deep_page Scenarios.row_deep 1))
     = [].
Proof.
  split; [exact (proj1 (row_deep_raises 1))|].
  apply (recursion_error_ends_cycle Scenarios.deep_page 0 []
           Scenarios.row_deep [Examples.row_launch] 1 []);
    [reflexivity|reflexivity|exact (proj1 (row_deep_raises 1))].
Defined.

(** X19.  The two logs only grow and the flags are only raised: whatever a
    cycle writes for a row, a staged found log is the stored one followed by
    new entries, a staged update log is the stored one followed by new
    changes, and [isUpdated], when staged, is [True]. *)
Theorem logs_only_grow rt (row : Row) (t : nat) (id : N)
    (data : update_data) (ok : bool)
    (Hwrite : In (id, data, ok) (writes (events (process_row rt row t)))) :
  id = row_id row
  /\ (upd_foundKeyword data = None
      \/ exists new_found,
           upd_foundKeyword data = Some (row_foundKeyword row ++ new_found))
  /\ (upd_Updates data = None
      \/ exists text_diffs,
           upd_Updates data = Some (row_Updates row ++ text_diffs))
  /\ upd_isUpdated data <> Some false.
Proof.
  destruct (row_completed row) eqn:Hc.
  { rewrite (process_row_completed rt row t Hc) in Hwrite. destruct Hwrite. }
  destruct (has_work rt row) eqn:Hw.
  2:{ rewrite (process_row_no_work rt row t Hc Hw) in Hwrite.
      destruct Hwrite. }
  destruct (process_row_writes rt row t Hc Hw) as (T & t1 & _ & _ & W).
  destruct (updates_return rt row T).
  2:{ destruct W as [_ W]. rewrite W in Hwrite. destruct Hwrite. }
  destruct W as (u & t3 & _ & _ & Rf & _ & D & W).
  rewrite W in Hwrite. destruct (update_nonempty u); [|destruct Hwrite].
  destruct Hwrite as [H|[]]. injection H as <- <- _.
  destruct (initial_update_fields row T) as (_ & If & _ & Ii & Iu).
  split; [reflexivity|]. split.
  - rewrite Rf. unfold after_keywords.
    destruct (nonempty (map (str_lower rt) (row_keywords row)));
      [right; simpl; eauto|left; exact If].
  - destruct (diff_needed row T).
    + destruct D as (Di & diffs & Du). rewrite Di, Du.
      split; [eauto|discriminate].
    + subst u. unfold after_keywords.
      destruct (nonempty (map (str_lower rt) (row_keywords row)));
        simpl; rewrite Ii, Iu; split; auto; discriminate.
Qed.

Lemma logs_only_grow_example :
  In (1%N, Examples.sale_update, true)
     (writes (events (process_row Examples.healthy Examples.row_sale 0)))
  /\ 1%N = row_id Examples.row_sale
  /\ upd_isUpdated Examples.sale_update <> Some false.
Proof.
  assert (W : In (1%N, Examples.sale_update, true)
                 (writes (events (process_row Examples.healthy
                                    Examples.row_sale 0))))
    by (vm_compute; tauto).
  destruct (logs_only_grow Examples.healthy Examples.row_sale 0 _ _ _ W)
    as (I & _ & _ & U).
  split; [exact W|]. split; [exact I|exact U].
Defined.
